(** * SoulPainterMinis API: the estimate calculator and the contact handler

    A shallow embedding of [main.py].  Python values are modelled as the
    interpreter has them:

    - a [str] is a sequence of Unicode code points ([PyStr.pystr]);
    - a [float] is an IEEE 754 binary64 number, here Rocq's primitive
      [float] with the operations of [PrimFloat] and their specification
      over [spec_float] ([FloatAxioms]);
    - an [int] is a [Z];
    - a [dict] literal is an association list in insertion order;
    - a call that may raise returns an [outcome]; code that talks to a
      collaborator (the [database] module, an uploaded file) threads an
      explicit state as well, and a dict it hands to the collaborator
      comes back as the collaborator left it. *)

From Stdlib Require Import ZArith NArith List Bool Lia Floats String Ascii.
From Stdlib Require Uint63.
Import ListNotations.

Set Warnings "-inexact-float,-register-all".

(* ================================================================== *)
(** * Python strings *)
(* ================================================================== *)

Module PyStr.

(** A Unicode code point. *)
Definition codepoint := N.

(** A Python [str]. *)
Definition pystr := list codepoint.

(** The [str] written by an ASCII literal of the source. *)
Definition str (s : string) : pystr :=
  map N_of_ascii (list_ascii_of_string s).

(** [s == t] on [str]. *)
Fixpoint eqb (s t : pystr) : bool :=
  match s, t with
  | [], [] => true
  | c :: s', d :: t' => N.eqb c d && eqb s' t'
  | _, _ => false
  end.

(** ** [str.lower] *)

Definition is_ascii (c : codepoint) : bool := (c <? 128)%N.

(** The ASCII fast path of [str.lower]: [A-Z] move to [a-z]. *)
Definition ascii_lower (c : codepoint) : codepoint :=
  if ((65 <=? c) && (c <=? 90))%N then (c + 32)%N else c.

Section Lower.

(** The full Unicode lower-case mapping of the interpreter (with its
    final-sigma rule), which [str.lower] runs on a string that holds a
    code point outside ASCII.  The table belongs to the interpreter, so
    it is a parameter here. *)
Variable unicode_lower : pystr -> pystr.

Definition lower (s : pystr) : pystr :=
  if forallb is_ascii s then map ascii_lower s else unicode_lower s.

End Lower.

(** ** [str.strip] and [str.split] *)

(** [str.isspace] on one code point: what [strip()] removes. *)
Definition is_space (c : codepoint) : bool :=
  ((9 <=? c) && (c <=? 13) || (28 <=? c) && (c <=? 32)
   || (c =? 133) || (c =? 160) || (c =? 5760)
   || (8192 <=? c) && (c <=? 8202)
   || (c =? 8232) || (c =? 8233) || (c =? 8239) || (c =? 8287)
   || (c =? 12288))%N.

Fixpoint lstrip (s : pystr) : pystr :=
  match s with
  | [] => []
  | c :: s' => if is_space c then lstrip s' else s
  end.

Definition rstrip (s : pystr) : pystr := rev (lstrip (rev s)).

(** [s.strip()] *)
Definition strip (s : pystr) : pystr := rstrip (lstrip s).

(** [s.split(sep)] for a one-character separator: the segments between the
    occurrences of [sep], always at least one. *)
Fixpoint split (sep : codepoint) (s : pystr) : list pystr :=
  match s with
  | [] => [[]]
  | c :: s' =>
      if N.eqb c sep then [] :: split sep s'
      else match split sep s' with
           | seg :: segs => (c :: seg) :: segs
           | [] => [[c]]
           end
  end.

(** Truth value of a [str]: the empty string is falsy. *)
Definition truthy (s : pystr) : bool :=
  match s with [] => false | _ => true end.

(** A label is padded when it starts or ends with whitespace. *)
Definition padded (s : pystr) : bool :=
  match s with
  | [] => false
  | c :: _ => is_space c || is_space (last s c)
  end.

End PyStr.

(* ================================================================== *)
(** * Calls that may raise *)
(* ================================================================== *)

Module Py.
Import PyStr.

(** What a call does: it returns a value or raises an [Exception], named
    by its class. *)
Inductive outcome (A : Type) :=
| Returns (a : A)
| Raises (exc : pystr).
Arguments Returns {A} a.
Arguments Raises {A} exc.

End Py.

(* ================================================================== *)
(** * Values that travel as JSON *)
(* ================================================================== *)

Module Json.
Import PyStr Py.

(** A Python value as [json.dumps] sees it.  A dict has [str] keys and
    keeps its insertion order; a [str] holds Unicode scalar values, as
    form decoding yields them, so encoding the text cannot fail;
    [VObject] is any other object (an [ObjectId], a [datetime]), named by
    its class. *)
Inductive pyval :=
| VNone
| VBool (b : bool)
| VInt (z : Z)
| VFloat (f : float)
| VStr (s : pystr)
| VList (items : list pyval)
| VDict (entries : list (pystr * pyval))
| VObject (class : pystr).

(** The exception [json.dumps(v, allow_nan=False)] raises, if any: the
    first value in document order that has no JSON form, a [TypeError]
    for an object and a [ValueError] for an infinite or NaN float. *)
Fixpoint dumps_error (v : pyval) : option pystr :=
  match v with
  | VNone | VBool _ | VInt _ | VStr _ => None
  | VFloat f => if is_finite f then None else Some (str "ValueError")
  | VObject _ => Some (str "TypeError")
  | VList items =>
      (fix first_error (l : list pyval) : option pystr :=
         match l with
         | [] => None
         | x :: rest =>
             match dumps_error x with
             | Some exc => Some exc
             | None => first_error rest
             end
         end) items
  | VDict entries =>
      (fix first_error (l : list (pystr * pyval)) : option pystr :=
         match l with
         | [] => None
         | (_, x) :: rest =>
             match dumps_error x with
             | Some exc => Some exc
             | None => first_error rest
             end
         end) entries
  end.

(** [JSONResponse(content)]: the body is rendered when the response is
    built, so building it raises what [json.dumps] raises. *)
Definition JSONResponse (content : pyval) : outcome pyval :=
  match dumps_error content with
  | Some exc => Raises exc
  | None => Returns content
  end.

End Json.

(* ================================================================== *)
(** * Python floats *)
(* ================================================================== *)

Module PyFloat.
Import PyStr Py.

(** [float(n)] for an [int] in the range of binary64: the nearest double,
    ties to even. *)
Definition of_int (z : Z) : float :=
  SF2Prim (binary_normalize prec emax z 0 false).

(** [n / d] rounded to an integer, ties to even ([0 < d], [0 <= n]). *)
Definition round_half_even (n d : Z) : Z :=
  let q := (n / d)%Z in
  let r := (n mod d)%Z in
  match (2 * r ?= d)%Z with
  | Lt => q
  | Gt => (q + 1)%Z
  | Eq => if Z.even q then q else (q + 1)%Z
  end.

(** The double nearest to [(-1)^s * k / d], ties to even: the result of
    reading the decimal back ([0 <= k], [0 < d]). *)
Definition nearest_double (s : bool) (k d : Z) : spec_float :=
  match k with
  | Zpos _ =>
      let '(mz, ez, lz) := SFdiv_core_binary prec emax k 0 d 0 in
      binary_round_aux prec emax s mz ez lz
  | _ => S754_zero s
  end.

(** The integer [k] with [k / 10^ndigits] the decimal nearest to
    [m * 2^e], ties to even: the digits the interpreter prints. *)
Definition decimal_digits (m : positive) (e ndigits : Z) : Z :=
  if (0 <=? e)%Z then (Zpos m * 2 ^ e * 10 ^ ndigits)%Z
  else round_half_even (Zpos m * 10 ^ ndigits) (2 ^ (- e)).

(** [round(x, ndigits)] on a float, for [0 <= ndigits]: infinities, NaN
    and zeros round to themselves; a finite [x] is rounded correctly to
    [ndigits] decimals (ties to even, on its exact value) and the decimal
    is read back as the nearest double.  The interpreter raises
    [OverflowError] when the decimal read back is out of range. *)
Definition round (x : float) (ndigits : Z) : outcome float :=
  match Prim2SF x with
  | S754_finite s m e =>
      match nearest_double s (decimal_digits m e ndigits) (10 ^ ndigits) with
      | S754_infinity _ => Raises (str "OverflowError")
      | rounded => Returns (SF2Prim rounded)
      end
  | _ => Returns x
  end.

(** ** Reading a double through its specification *)

(** A double that is not NaN and carries the sign [s]. *)
Definition signed (s : bool) (x : spec_float) : Prop :=
  match x with
  | S754_zero s' | S754_infinity s' | S754_finite s' _ _ => s' = s
  | S754_nan => False
  end.

(** A double that is a real number: a zero or a finite value. *)
Definition real (x : spec_float) : Prop :=
  match x with
  | S754_zero _ | S754_finite _ _ _ => True
  | _ => False
  end.

(** The sign bit of a double ([false] for NaN). *)
Definition sign_of (x : spec_float) : bool :=
  match x with
  | S754_zero s | S754_infinity s | S754_finite s _ _ => s
  | S754_nan => false
  end.

(** [k] is an integer nearest to [m * 2^e * 100]: the two differ by at
    most one half. *)
Definition nearest_hundredths (m : positive) (e k : Z) : Prop :=
  if (0 <=? e)%Z then k = (Zpos m * 2 ^ e * 100)%Z
  else (Z.abs (2 * (Zpos m * 100) - 2 * k * 2 ^ (- e)) <= 2 ^ (- e))%Z.

End PyFloat.

(* ================================================================== *)
(** * The estimate calculator ([estimate], [POST /api/estimate]) *)
(* ================================================================== *)

Module Estimate.
Import PyStr Py.

Local Open Scope float_scope.

(** A Python number as the calculator meets it: the [int] literals [2],
    [4] and [0], and the [float] values of the table. *)
Inductive pynum :=
| PyInt (z : Z)
| PyFloat (f : float).

(** The operand of [float * number] as a double. *)
Definition to_float (n : pynum) : float :=
  match n with
  | PyInt z => PyFloat.of_int z
  | PyFloat f => f
  end.

(** [x * n] for a float [x]: an [int] operand is converted first. *)
Definition float_mul (x : float) (n : pynum) : float := x * to_float n.

(** [d.get(key, default)] on a dict with [str] keys. *)
Fixpoint dict_get {V : Type} (d : list (pystr * V)) (key : pystr) (default : V) : V :=
  match d with
  | [] => default
  | (k, v) :: d' => if eqb key k then v else dict_get d' key default
  end.

(** [class EstimateRequest(BaseModel)] *)
Record EstimateRequest := {
  box_price : float;
  tier : pystr;
  addons : list pystr
}.

(** The response body [{"estimated_total": ...}]. *)
Record EstimateResponse := { estimated_total : float }.

(** [addon_map] *)
Definition addon_map : list (pystr * pynum) :=
  [ (str "OSL Effects", PyFloat 0.2);
    (str "Weathering / Battle Damage", PyFloat 0.15);
    (str "Advanced Basing", PyFloat 0.15);
    (str "Fine Freehand Details", PyFloat 0.25);
    (str "Conversions / Kitbashing", PyFloat 0.3);
    (str "Magnetization", PyFloat 0.1) ].

Section Calculator.

Variable unicode_lower : pystr -> pystr.

(** [2 if req.tier.lower() == "shikai" else 4] *)
Definition base_multiplier (tier : pystr) : Z :=
  if eqb (lower unicode_lower tier) (str "shikai") then 2%Z else 4%Z.

(** The loop [for a in req.addons: total += req.box_price * addon_map.get(a, 0)],
    from the running [total]. *)
Fixpoint add_addons (box_price : float) (addons : list pystr) (total : float) : float :=
  match addons with
  | [] => total
  | a :: rest =>
      add_addons box_price rest
        (total + float_mul box_price (dict_get addon_map a (PyInt 0)))
  end.

(** [total] when the loop ends, before rounding. *)
Definition estimate_total (req : EstimateRequest) : float :=
  add_addons (box_price req) (addons req)
    (float_mul (box_price req) (PyInt (base_multiplier (tier req)))).

(** [estimate(req)] *)
Definition estimate (req : EstimateRequest) : outcome EstimateResponse :=
  match PyFloat.round (estimate_total req) 2 with
  | Returns rounded => Returns {| estimated_total := rounded |}
  | Raises exc => Raises exc
  end.

End Calculator.

(** ** The words of the description *)

(** The surcharge fraction of a label: its entry in the table, [0] when
    the table has none. *)
Definition fraction (label : pystr) : pynum :=
  dict_get addon_map label (PyInt 0).

(** The labels of the table. *)
Definition known_addons : list pystr := map fst addon_map.

(** The request with one more add-on at the end of its list. *)
Definition with_addon (req : EstimateRequest) (label : pystr) : EstimateRequest :=
  {| box_price := box_price req;
     tier := tier req;
     addons := addons req ++ [label] |}.

(** A non-negative real constant: the multipliers and the fractions of
    the table. *)
Definition factor (c : float) : Prop :=
  PyFloat.signed false (Prim2SF c) /\ PyFloat.real (Prim2SF c).

End Estimate.

(* ================================================================== *)
(** * The contact handler ([submit_contact], [POST /api/contact]) *)
(* ================================================================== *)

Module Contact.
Import PyStr Py Json.

(** An [UploadFile] as the handler uses it: its two attributes and what
    [await f.read()] and [await f.close()] do. *)
Record UploadFile := {
  filename : option pystr;
  content_type : option pystr;
  read : outcome (list Byte.byte);
  close : outcome unit
}.

(** An entry of [file_info]. *)
Record FileInfo := {
  info_filename : option pystr;
  info_content_type : option pystr;
  info_size : option Z
}.

(** The form fields of [submit_contact]. *)
Record ContactForm := {
  name : pystr;
  email : pystr;
  description : pystr;
  tier : option pystr;
  addons : option pystr;
  files : option (list UploadFile)
}.

(** The dict [payload]. *)
Record Payload := {
  payload_name : pystr;
  payload_email : pystr;
  payload_description : pystr;
  payload_tier : option pystr;
  payload_addons : list pystr;
  payload_files : list FileInfo;
  payload_source : pystr
}.

(** [[a.strip() for a in (addons or '').split(',') if a.strip()]] *)
Definition addons_list (addons : option pystr) : list pystr :=
  let text := match addons with
              | Some a => if truthy a then a else str ""
              | None => str ""
              end in
  map strip (filter (fun a => truthy (strip a)) (split 44%N text)).

(** The body of [for f in files]: read the file to measure it; a failing
    read or close records the file with no size. *)
Definition file_entry (f : UploadFile) : FileInfo :=
  match read f with
  | Returns chunk =>
      match close f with
      | Returns _ =>
          {| info_filename := filename f;
             info_content_type := content_type f;
             info_size := Some (Z.of_nat (List.length chunk)) |}
      | Raises _ =>
          {| info_filename := filename f;
             info_content_type := content_type f;
             info_size := None |}
      end
  | Raises _ =>
      {| info_filename := filename f;
         info_content_type := content_type f;
         info_size := None |}
  end.

(** [file_info] after [if files: for f in files: ...]. *)
Definition file_info (files : option (list UploadFile)) : list FileInfo :=
  match files with
  | Some fs => map file_entry fs
  | None => []
  end.

Definition payload_of (form : ContactForm) : Payload :=
  {| payload_name := name form;
     payload_email := email form;
     payload_description := description form;
     payload_tier := tier form;
     payload_addons := addons_list (addons form);
     payload_files := file_info (files form);
     payload_source := str "website" |}.

(** ** The payload as a dict *)

(** A [str] or [None]. *)
Definition optional_str (o : option pystr) : pyval :=
  match o with
  | Some v => VStr v
  | None => VNone
  end.

(** The dict [{"filename": ..., "content_type": ..., "size": ...}]. *)
Definition file_info_dict (entry : FileInfo) : pyval :=
  VDict [ (str "filename", optional_str (info_filename entry));
          (str "content_type", optional_str (info_content_type entry));
          (str "size", match info_size entry with
                       | Some n => VInt n
                       | None => VNone
                       end) ].

(** The dict object [payload], its keys in the order of the literal. *)
Definition payload_dict (p : Payload) : list (pystr * pyval) :=
  [ (str "name", VStr (payload_name p));
    (str "email", VStr (payload_email p));
    (str "description", VStr (payload_description p));
    (str "tier", optional_str (payload_tier p));
    (str "addons", VList (map VStr (payload_addons p)));
    (str "files", VList (map file_info_dict (payload_files p)));
    (str "source", VStr (payload_source p)) ].

(** The content of the response: the dict handed to [JSONResponse]. *)
Definition response_content (inserted_id : pyval)
    (payload : list (pystr * pyval)) : pyval :=
  VDict [ (str "ok", VBool true);
          (str "message",
           VStr (str "Thanks! We'll get back to you within 24-48 hours."));
          (str "id", inserted_id);
          (str "received", VDict payload) ].

Section Handler.

(** The state of the document store. *)
Variable DB : Type.

(** [create_document(collection_name, payload)] of the [database] module.
    The handler passes its own dict: the call may edit it and may change
    the store before it returns a value or raises, so the model returns
    the dict and the store as the call left them. *)
Definition create_document_fn : Type :=
  pystr -> list (pystr * pyval) -> DB ->
  outcome pyval * list (pystr * pyval) * DB.

(** What the handler runs in: the result of
    [from database import create_document] (the import raises, or binds
    the name to a callable or to a falsy object), and the store. *)
Record World := {
  database_import : outcome (option create_document_fn);
  store : DB
}.

(** [submit_contact]: what the handler returns or raises, and the world
    after it.  [payload] is one dict object: the one built from the form,
    handed to [create_document] and echoed under ["received"]. *)
Definition submit_contact (form : ContactForm) (w : World) : outcome pyval * World :=
  let create_document :=
    match database_import w with
    | Returns f => f
    | Raises _ => None
    end in
  let payload := payload_dict (payload_of form) in
  let '(inserted_id, payload, db) :=
    match create_document with
    | Some create =>
        match create (str "contactrequest") payload (store w) with
        | (Returns new_id, payload', db') => (new_id, payload', db')
        | (Raises _, payload', db') => (VNone, payload', db')
        end
    | None => (VNone, payload, store w)
    end in
  (JSONResponse (response_content inserted_id payload),
   {| database_import := database_import w; store := db |}).

End Handler.

Arguments database_import {DB} w.
Arguments store {DB} w.
Arguments submit_contact {DB} form w.

(** ** The words of the description *)

(** The text the comprehension splits: [addons or '']. *)
Definition addons_text (addons : option pystr) : pystr :=
  match addons with
  | Some a => a
  | None => []
  end.

(** No callable [create_document] came out of the import: it raised, or
    bound a falsy object. *)
Definition database_unavailable {DB : Type} (w : World DB) : Prop :=
  match database_import w with
  | Returns (Some _) => False
  | _ => True
  end.

(** [create_document] was called and raised, leaving the payload dict as
    [left]. *)
Definition create_document_raises {DB : Type}
    (form : ContactForm) (w : World DB) (left : list (pystr * pyval)) : Prop :=
  exists create exc db',
    database_import w = Returns (Some create)
    /\ create (str "contactrequest") (payload_dict (payload_of form)) (store w)
       = (Raises exc, left, db').

(** [create_document] was called and returned [new_id], leaving the
    payload dict as [left]. *)
Definition create_document_returns {DB : Type}
    (form : ContactForm) (w : World DB)
    (new_id : pyval) (left : list (pystr * pyval)) : Prop :=
  exists create db',
    database_import w = Returns (Some create)
    /\ create (str "contactrequest") (payload_dict (payload_of form)) (store w)
       = (Returns new_id, left, db').

(** A store whose [create_document] stamps the dict it is given and then
    fails to reach the server. *)
Definition failing_world : World nat :=
  {| database_import :=
       Returns (Some (fun _ payload db =>
                        (Raises (str "ConnectionError"),
                         payload ++ [(str "created_at", VStr (str "2024-05-01"))],
                         db)));
     store := 0 |}.

(** A store whose [create_document] gives the dict an [_id], as the
    driver's insert does, and then fails to reach the server. *)
Definition marking_world : World nat :=
  {| database_import :=
       Returns (Some (fun _ payload db =>
                        (Raises (str "ConnectionError"),
                         payload ++ [(str "_id", VObject (str "ObjectId"))],
                         db)));
     store := 0 |}.

(** A submission with every field filled and one unreadable upload. *)
Definition sample_form : ContactForm :=
  {| name := str "Ichigo";
     email := str "ichigo@example.org";
     description := str "A squad of ten";
     tier := Some (str "bankai");
     addons := Some (str " OSL Effects , ,Magnetization,, ");
     files := Some [ {| filename := Some (str "ref.png");
                        content_type := Some (str "image/png");
                        read := Raises (str "OSError");
                        close := Returns tt |} ] |}.

End Contact.

(* ================================================================== *)
(** * The database diagnostic ([test_database], [GET /test]) *)
(* ================================================================== *)

Module Diagnostics.
Import PyStr.

(** The marks of the report: U+2705, U+274C and U+26A0 U+FE0F. *)
Definition check_mark : pystr := [9989%N].
Definition cross_mark : pystr := [10060%N].
Definition warning_sign : pystr := [9888%N; 65039%N].

(** An exception as the endpoint looks at it: whether it is an
    [ImportError], and its text [str(e)]. *)
Record exception := {
  is_import_error : bool;
  text : pystr
}.

(** What a step of the endpoint does: it completes with a value or throws. *)
Inductive attempt (A : Type) :=
| Done (a : A)
| Throws (e : exception).
Arguments Done {A} a.
Arguments Throws {A} e.

(** The object [db] as the endpoint uses it: [getattr(db, 'name', None)]
    and [db.list_collection_names()]. *)
Record Database := {
  name : attempt (option pystr);
  list_collection_names : attempt (list pystr)
}.

(** The dict [response]. *)
Record DiagnosticResponse := {
  backend : pystr;
  database : pystr;
  database_url : option pystr;
  database_name : option pystr;
  connection_status : pystr;
  collections : list pystr
}.

(** [response[key] = value], one per key the endpoint assigns. *)
Definition set_database (v : pystr) (r : DiagnosticResponse) : DiagnosticResponse :=
  {| backend := backend r; database := v; database_url := database_url r;
     database_name := database_name r;
     connection_status := connection_status r; collections := collections r |}.

Definition set_database_url (v : option pystr) (r : DiagnosticResponse) : DiagnosticResponse :=
  {| backend := backend r; database := database r; database_url := v;
     database_name := database_name r;
     connection_status := connection_status r; collections := collections r |}.

Definition set_database_name (v : option pystr) (r : DiagnosticResponse) : DiagnosticResponse :=
  {| backend := backend r; database := database r; database_url := database_url r;
     database_name := v;
     connection_status := connection_status r; collections := collections r |}.

Definition set_connection_status (v : pystr) (r : DiagnosticResponse) : DiagnosticResponse :=
  {| backend := backend r; database := database r; database_url := database_url r;
     database_name := database_name r;
     connection_status := v; collections := collections r |}.

Definition set_collections (v : list pystr) (r : DiagnosticResponse) : DiagnosticResponse :=
  {| backend := backend r; database := database r; database_url := database_url r;
     database_name := database_name r;
     connection_status := connection_status r; collections := v |}.

Section Endpoint.

(** [os.getenv]: the process environment. *)
Variable getenv : pystr -> option pystr.

(** What [from database import db] does: it throws, or binds [db] to
    [None] or to an object. *)
Variable import_db : attempt (option Database).

(** ["✅ Set" if os.getenv(key) else "❌ Not Set"] *)
Definition set_or_not (key : pystr) : pystr :=
  match getenv key with
  | Some v => if truthy v then check_mark ++ str " Set"
              else cross_mark ++ str " Not Set"
  | None => cross_mark ++ str " Not Set"
  end.

(** The two handlers of the outer [try]. *)
Definition outer_except (e : exception) (r : DiagnosticResponse) : DiagnosticResponse :=
  if is_import_error e
  then set_database (cross_mark ++ str " Database module not found") r
  else set_database (cross_mark ++ str " Error: " ++ firstn 50 (text e)) r.

(** [getattr(db, 'name', None) or "✅ Connected"] *)
Definition name_or_connected (n : option pystr) : pystr :=
  match n with
  | Some v => if truthy v then v else check_mark ++ str " Connected"
  | None => check_mark ++ str " Connected"
  end.

(** [test_database()] *)
Definition test_database : DiagnosticResponse :=
  let response :=
    {| backend := check_mark ++ str " Running";
       database := cross_mark ++ str " Not Available";
       database_url := None;
       database_name := None;
       connection_status := str "Not Connected";
       collections := [] |} in
  let response :=
    match import_db with
    | Throws e => outer_except e response
    | Done None =>
        set_database (warning_sign ++ str " Available but not initialized") response
    | Done (Some db) =>
        let response := set_database (check_mark ++ str " Available") response in
        let response := set_database_url (Some (set_or_not (str "DATABASE_URL"))) response in
        match name db with
        | Throws e => outer_except e response
        | Done n =>
            let response := set_database_name (Some (name_or_connected n)) response in
            let response := set_connection_status (str "Connected") response in
            match list_collection_names db with
            | Done names =>
                let response := set_collections (firstn 10 names) response in
                set_database (check_mark ++ str " Connected & Working") response
            | Throws e =>
                set_database
                  (warning_sign ++ str " Connected but Error: " ++ firstn 50 (text e))
                  response
            end
        end
    end in
  let response := set_database_url (Some (set_or_not (str "DATABASE_URL"))) response in
  set_database_name (Some (set_or_not (str "DATABASE_NAME"))) response.

End Endpoint.

End Diagnostics.

(* ================================================================== *)
(** * Further words of the description *)
(* ================================================================== *)

Module EstimateWords.
Import PyStr Estimate.

(** The label is one of the table's: [label in addon_map]. *)
Definition known (label : pystr) : bool :=
  existsb (eqb label) known_addons.

End EstimateWords.

Module ContactWords.
Import PyStr Py Json Contact.

(** [sep.join(parts)] for a one-character separator. *)
Fixpoint join (sep : codepoint) (parts : list pystr) : pystr :=
  match parts with
  | [] => []
  | [p] => p
  | p :: rest => p ++ sep :: join sep rest
  end.

(** A label as the parser leaves it: not empty, no whitespace at either
    end, no comma. *)
Definition clean (label : pystr) : Prop :=
  truthy label = true /\ padded label = false /\ ~ In 44%N label.

(** The files of the form: [files] when given, none otherwise. *)
Definition uploaded (form : ContactForm) : list UploadFile :=
  match files form with
  | Some fs => fs
  | None => []
  end.

(** The text between two commas as the parser reads it: whitespace, a
    core that neither starts nor ends with whitespace and holds no comma
    (it may be empty), whitespace. *)
Record Segment := {
  leading : pystr;
  core : pystr;
  trailing : pystr
}.

Definition segment_text (s : Segment) : pystr :=
  leading s ++ core s ++ trailing s.

Definition segment_ok (s : Segment) : Prop :=
  forallb is_space (leading s) = true
  /\ forallb is_space (trailing s) = true
  /\ padded (core s) = false
  /\ ~ In 44%N (core s).

End ContactWords.

(* ================================================================== *)
(** * Facts about binary64 arithmetic *)
(* ================================================================== *)

Module FloatFacts.
Import PyStr Py PyFloat.
Local Open Scope Z_scope.

(** ** Rounding keeps the sign *)

Lemma iter_pos_invariant {A : Type} (P : A -> Prop) (f : A -> A) :
  (forall x, P x -> P (f x)) ->
  forall n x, P x -> P (iter_pos f n x).
Proof.
  intros step n.
  induction n as [n IH | n IH | ]; intros x Hx; simpl; auto.
Qed.

Lemma shr_1_nonneg mrs : (0 <= shr_m mrs) -> (0 <= shr_m (shr_1 mrs)).
Proof.
  destruct mrs as [m r s]; simpl.
  destruct m as [ | [p | p | ] | p ]; simpl; lia.
Qed.

Lemma shr_nonneg mrs e n :
  0 <= shr_m mrs -> 0 <= shr_m (fst (shr mrs e n)).
Proof.
  intros H. destruct n as [ | p | p ]; simpl; auto.
  apply (iter_pos_invariant (fun r => 0 <= shr_m r)); auto using shr_1_nonneg.
Qed.

Lemma shr_record_of_loc_m m l : shr_m (shr_record_of_loc m l) = m.
Proof. destruct l as [ | [ | | ] ]; reflexivity. Qed.

Lemma shr_fexp_nonneg m e l :
  0 <= m -> 0 <= shr_m (fst (shr_fexp prec emax m e l)).
Proof.
  intros H. unfold shr_fexp. apply shr_nonneg.
  now rewrite shr_record_of_loc_m.
Qed.

Lemma round_nearest_even_nonneg m l :
  0 <= m -> (0 <= round_nearest_even m l).
Proof.
  intros H. destruct l as [ | [ | | ] ]; simpl; try lia.
  destruct (Z.even m); lia.
Qed.

(** Rounding a non-negative mantissa never yields NaN and keeps the sign. *)
Lemma binary_round_aux_signed s m e l :
  0 <= m -> signed s (binary_round_aux prec emax s m e l).
Proof.
  intros H. unfold binary_round_aux.
  pose proof (shr_fexp_nonneg m e l H) as H1.
  destruct (shr_fexp prec emax m e l) as [mrs' e']. simpl in H1.
  pose proof (shr_fexp_nonneg _ e' loc_Exact
                (round_nearest_even_nonneg _ (loc_of_shr_record mrs') H1)) as H2.
  destruct (shr_fexp prec emax _ e' loc_Exact) as [mrs'' e'']. simpl in H2.
  destruct (shr_m mrs'') as [ | p | p ]; simpl; try reflexivity.
  - destruct (_ <=? _); reflexivity.
  - lia.
Qed.

Lemma binary_round_signed s m e : signed s (binary_round prec emax s m e).
Proof.
  unfold binary_round.
  destruct (shl_align m e _) as [mz ez].
  apply binary_round_aux_signed. lia.
Qed.

Lemma SFmul_signed sx sy x y :
  signed sx x -> real x -> signed sy y -> real y ->
  signed (xorb sx sy) (SFmul prec emax x y).
Proof.
  destruct x as [s1 | s1 | | s1 m1 e1]; destruct y as [s2 | s2 | | s2 m2 e2];
    simpl; intros; subst; try tauto.
  apply binary_round_aux_signed. lia.
Qed.

Lemma SFadd_signed s x y :
  signed s x -> signed s y -> signed s (SFadd prec emax x y).
Proof.
  destruct x as [s1 | s1 | | s1 m1 e1]; destruct y as [s2 | s2 | | s2 m2 e2];
    simpl; intros Hx Hy; subst; try tauto; try (destruct s; reflexivity).
  destruct s; simpl; apply binary_round_signed.
Qed.

(** ** Primitive floats through their specification *)

Lemma Prim2SF_nan_iff x : Prim2SF x = S754_nan <-> is_nan x = true.
Proof.
  unfold Prim2SF. destruct (is_nan x); [tauto | ].
  split; [ | discriminate ].
  destruct (is_zero x); [discriminate | ].
  destruct (is_infinity x); [discriminate | ].
  destruct (Z.frexp x) as [r ex].
  destruct (shr_fexp _ _ _ _ _) as [mrs e'].
  destruct (shr_m mrs); discriminate.
Qed.

Lemma is_finite_real x : is_finite x = true -> real (Prim2SF x).
Proof.
  unfold is_finite, Prim2SF.
  destruct (is_nan x); [discriminate | ].
  destruct (is_zero x); [simpl; trivial | ].
  destruct (is_infinity x); [discriminate | ].
  intros _.
  destruct (Z.frexp x) as [r ex].
  destruct (shr_fexp _ _ _ _ _) as [mrs e'].
  destruct (shr_m mrs); simpl; trivial.
Qed.

Lemma real_signed x : real x -> signed (sign_of x) x.
Proof. destruct x; simpl; tauto. Qed.

Lemma signed_not_nan s x : signed s x -> x <> S754_nan.
Proof. intros H ->. exact H. Qed.

Lemma binary_normalize_not_nan m e sz :
  binary_normalize prec emax m e sz <> S754_nan.
Proof.
  destruct m as [ | p | p ]; simpl; try discriminate;
    eapply signed_not_nan, binary_round_signed.
Qed.

Lemma SFldexp_not_nan x e : x <> S754_nan -> SFldexp prec emax x e <> S754_nan.
Proof.
  destruct x as [s | s | | s m ex]; simpl; auto.
  intros _. eapply signed_not_nan, binary_round_signed.
Qed.

Lemma SFopp_not_nan x : x <> S754_nan -> SFopp x <> S754_nan.
Proof. destruct x; simpl; auto; discriminate. Qed.

(** Reading back a double that is not NaN gives a float that is not NaN. *)
Lemma SF2Prim_not_nan x : x <> S754_nan -> is_nan (SF2Prim x) = false.
Proof.
  intros H.
  destruct (is_nan (SF2Prim x)) eqn:E; [ | reflexivity ].
  apply Prim2SF_nan_iff in E. exfalso.
  destruct x as [[ | ] | [ | ] | | s m e]; try (vm_compute in E; discriminate).
  - now apply H.
  - revert E. unfold SF2Prim, Z.ldexp.
    set (pm := of_uint63 _). set (sh := Uint63Axioms.of_Z _).
    assert (Hl : Prim2SF (ldshiftexp pm sh) <> S754_nan).
    { rewrite ldshiftexp_spec. apply SFldexp_not_nan.
      unfold pm. rewrite of_uint63_spec. apply binary_normalize_not_nan. }
    destruct s; [ rewrite opp_spec; now apply SFopp_not_nan | exact Hl ].
Qed.

(** ** Digits *)

Lemma digits2_pos_upper m : Zpos m < 2 ^ Zpos (digits2_pos m).
Proof.
  induction m as [m IH | m IH | ]; cbn [digits2_pos];
    rewrite ?Pos2Z.inj_succ, ?Z.pow_succ_r by lia; lia.
Qed.

Lemma digits2_pos_lower m : 2 ^ (Zpos (digits2_pos m) - 1) <= Zpos m.
Proof.
  induction m as [m IH | m IH | ]; cbn [digits2_pos];
    rewrite ?Pos2Z.inj_succ; try (simpl; lia);
    replace (Z.succ (Zpos (digits2_pos m)) - 1) with (Z.succ (Zpos (digits2_pos m) - 1)) by lia;
    rewrite Z.pow_succ_r by lia; lia.
Qed.

Lemma Zdigits2_le m n : 0 <= m < 2 ^ n -> 0 <= n -> Zdigits2 m <= n.
Proof.
  intros [H0 H] Hn. destruct m as [ | p | p ]; cbn [Zdigits2]; try lia.
  pose proof (digits2_pos_lower p) as L.
  destruct (Z_lt_le_dec n (Zpos (digits2_pos p))) as [C | C]; [ | exact C ].
  exfalso.
  assert (2 ^ n <= 2 ^ (Zpos (digits2_pos p) - 1)) by (apply Z.pow_le_mono_r; lia).
  lia.
Qed.

Lemma Zdigits2_double z : 0 < z -> Zdigits2 (2 * z) = Zdigits2 z + 1.
Proof.
  destruct z as [ | p | p ]; try lia. intros _.
  cbn [Z.mul Pos.mul Zdigits2 digits2_pos]. lia.
Qed.

Lemma Zdigits2_mul_pow2 z j : 0 < z -> 0 <= j -> Zdigits2 (z * 2 ^ j) = Zdigits2 z + j.
Proof.
  intros Hz Hj. revert j Hj. apply natlike_ind.
  - rewrite Z.pow_0_r, Z.mul_1_r. lia.
  - intros j Hj IH. rewrite Z.pow_succ_r by lia.
    replace (z * (2 * 2 ^ j)) with (2 * (z * 2 ^ j)) by ring.
    assert (0 < 2 ^ j) by (apply Z.pow_pos_nonneg; lia).
    rewrite Zdigits2_double by (apply Z.mul_pos_pos; assumption). rewrite IH. lia.
Qed.

(** ** Shifts *)

Lemma shr_1_double z :
  0 <= z ->
  shr_1 (Build_shr_record (2 * z) false false) = Build_shr_record z false false.
Proof. destruct z as [ | p | p ]; try lia; reflexivity. Qed.

Lemma iter_shr_1_exact p : forall z,
  0 <= z ->
  iter_pos shr_1 p (Build_shr_record (z * 2 ^ Zpos p) false false) =
  Build_shr_record z false false.
Proof.
  induction p as [p IH | p IH | ]; intros z Hz; cbn [iter_pos].
  - assert (P : 0 < 2 ^ Zpos p) by (apply Z.pow_pos_nonneg; lia).
    replace (z * 2 ^ Zpos p~1) with (2 * (z * 2 ^ Zpos p * 2 ^ Zpos p)).
    + rewrite shr_1_double by nia. rewrite IH by nia. now apply IH.
    + replace (Zpos p~1) with (Zpos p + Zpos p + 1) by lia.
      rewrite !Z.pow_add_r, Z.pow_1_r by lia. ring.
  - assert (P : 0 < 2 ^ Zpos p) by (apply Z.pow_pos_nonneg; lia).
    replace (z * 2 ^ Zpos p~0) with (z * 2 ^ Zpos p * 2 ^ Zpos p).
    + rewrite IH by nia. now apply IH.
    + replace (Zpos p~0) with (Zpos p + Zpos p) by lia.
      rewrite Z.pow_add_r by lia. ring.
  - replace (z * 2 ^ 1) with (2 * z) by (rewrite Z.pow_1_r; ring).
    now apply shr_1_double.
Qed.

Lemma shr_1_le mrs : 0 <= shr_m mrs -> 0 <= shr_m (shr_1 mrs) <= shr_m mrs.
Proof.
  destruct mrs as [m r s]; cbn [shr_m shr_1].
  destruct m as [ | [p | p | ] | p ]; cbn [shr_m]; lia.
Qed.

Lemma shr_le mrs e n :
  0 <= shr_m mrs -> 0 <= shr_m (fst (shr mrs e n)) <= shr_m mrs.
Proof.
  intros H. destruct n as [ | p | p ]; cbn [shr fst]; try lia.
  apply (iter_pos_invariant (fun r => 0 <= shr_m r <= shr_m mrs)); [ | lia ].
  intros x Hx. pose proof (shr_1_le x). lia.
Qed.

Lemma shr_exponent mrs e n : snd (shr mrs e n) = e + Z.max n 0.
Proof. destruct n; cbn [shr snd]; lia. Qed.

Lemma shr_fexp_bounds m e l :
  0 <= m ->
  0 <= shr_m (fst (shr_fexp prec emax m e l)) <= m
  /\ snd (shr_fexp prec emax m e l) = Z.max e (fexp prec emax (Zdigits2 m + e)).
Proof.
  intros H. unfold shr_fexp. split.
  - pose proof (shr_le (shr_record_of_loc m l) e
                  (fexp prec emax (Zdigits2 m + e) - e)) as B.
    rewrite shr_record_of_loc_m in B. auto.
  - rewrite shr_exponent. lia.
Qed.

Lemma round_nearest_even_le m l : m <= round_nearest_even m l <= m + 1.
Proof.
  destruct l as [ | [ | | ] ]; cbn [round_nearest_even]; try lia.
  destruct (Z.even m); lia.
Qed.

(** A mantissa below [2^60] at an exponent that is not positive rounds to
    a double far from the overflow threshold. *)
Lemma binary_round_aux_no_overflow s m e l :
  0 <= m < 2 ^ 60 -> e <= 0 ->
  forall s', binary_round_aux prec emax s m e l <> S754_infinity s'.
Proof.
  intros [H0 H] He s'. unfold binary_round_aux.
  destruct (shr_fexp_bounds m e l H0) as [[B1 B2] E1].
  destruct (shr_fexp prec emax m e l) as [mrs1 e1]. cbn [fst snd] in *.
  set (mr := round_nearest_even (shr_m mrs1) (loc_of_shr_record mrs1)).
  pose proof (round_nearest_even_le (shr_m mrs1) (loc_of_shr_record mrs1)) as R.
  fold mr in R.
  assert (Hmr : 0 <= mr) by lia.
  destruct (shr_fexp_bounds mr e1 loc_Exact Hmr) as [[C1 C2] E2].
  destruct (shr_fexp prec emax mr e1 loc_Exact) as [mrs2 e2]. cbn [fst snd] in *.
  assert (D1 : Zdigits2 m <= 60) by (apply Zdigits2_le; lia).
  assert (D2 : Zdigits2 mr <= 61).
  { apply Zdigits2_le; [ | lia ]. split; [ lia | ].
    change (2 ^ 61) with (2 * 2 ^ 60). lia. }
  unfold fexp, SpecFloat.emin, prec, emax in *.
  assert (e2 <= 971) by lia.
  destruct (shr_m mrs2); try discriminate.
  replace (e2 <=? 1024 - 53) with true by (symmetry; apply Z.leb_le; lia).
  discriminate.
Qed.

(** ** Reading a decimal back *)

Lemma div_eucl_div_mod a b : Z.div_eucl a b = (a / b, a mod b).
Proof. unfold Z.div, Z.modulo. now destruct (Z.div_eucl a b). Qed.

(** Reading back a decimal below [2^59 / 100] never overflows. *)
Lemma nearest_double_small s k :
  0 <= k < 2 ^ 59 ->
  forall s', nearest_double s k 100 <> S754_infinity s'.
Proof.
  intros [H0 H] s'. unfold nearest_double.
  destruct k as [ | p | p ]; try discriminate.
  unfold SFdiv_core_binary.
  change (Zdigits2 100) with 7.
  set (d1 := Zdigits2 (Zpos p)).
  assert (D : 1 <= d1 <= 59).
  { unfold d1. split; [ cbn [Zdigits2]; lia | apply Zdigits2_le; lia ]. }
  set (e' := Z.min (fexp prec emax (d1 + 0 - (7 + 0))) (0 - 0)).
  assert (E : e' = d1 - 60).
  { unfold e', fexp, SpecFloat.emin, prec, emax. lia. }
  replace (0 - 0 - e') with (60 - d1) by lia.
  destruct (60 - d1) as [ | sh | sh ] eqn:S; try lia.
  rewrite Z.shiftl_mul_pow2 by lia.
  rewrite div_eucl_div_mod.
  apply binary_round_aux_no_overflow; [ | lia ].
  assert (U : Zpos p < 2 ^ d1) by apply digits2_pos_upper.
  assert (P : 0 < 2 ^ Zpos sh) by (apply Z.pow_pos_nonneg; lia).
  assert (M : Zpos p * 2 ^ Zpos sh < 2 ^ 60).
  { replace 60 with (d1 + Zpos sh) by lia.
    rewrite Z.pow_add_r by lia. nia. }
  split.
  - apply Z.div_pos; lia.
  - apply Z.le_lt_trans with (Zpos p * 2 ^ Zpos sh); [ | exact M ].
    apply Z.div_le_upper_bound; nia.
Qed.

(** A double that is an integer reads back as itself. *)
Lemma nearest_double_exact s m e :
  0 <= e -> bounded prec emax m e = true ->
  nearest_double s (Zpos m * 2 ^ e * 100) 100 = S754_finite s m e.
Proof.
  intros He B. unfold bounded, canonical_mantissa in B.
  apply andb_true_iff in B as [C L]. apply Z.eqb_eq in C.
  assert (P : 0 < 2 ^ e) by (apply Z.pow_pos_nonneg; lia).
  unfold nearest_double.
  destruct (Zpos m * 2 ^ e * 100) as [ | k | k ] eqn:K; try nia.
  rewrite <- K. clear k K.
  unfold SFdiv_core_binary.
  set (e' := Z.min _ (0 - 0)).
  assert (E : e' <= 0) by (unfold e'; lia).
  set (m' := match 0 - 0 - e' with Zpos _ => _ | Z0 => _ | Zneg _ => 0 end).
  assert (M : m' = Zpos m * 2 ^ (e - e') * 100).
  { unfold m'. destruct (0 - 0 - e') as [ | sh | sh ] eqn:S; try lia.
    - replace (e - e') with e by lia. reflexivity.
    - rewrite Z.shiftl_mul_pow2 by lia.
      replace (e - e') with (e + Zpos sh) by lia.
      rewrite Z.pow_add_r by lia. ring. }
  rewrite div_eucl_div_mod, M, Z.div_mul, Z.mod_mul by lia.
  change (new_location 100 0) with loc_Exact.
  unfold binary_round_aux.
  assert (Q : 0 < 2 ^ (e - e')) by (apply Z.pow_pos_nonneg; lia).
  assert (F : fexp prec emax (Zdigits2 (Zpos m * 2 ^ (e - e')) + e') = e).
  { rewrite Zdigits2_mul_pow2 by lia. cbn [Zdigits2].
    replace (Zpos (digits2_pos m) + (e - e') + e') with (Zpos (digits2_pos m) + e) by lia.
    exact C. }
  assert (S1 : shr_fexp prec emax (Zpos m * 2 ^ (e - e')) e' loc_Exact =
               (Build_shr_record (Zpos m) false false, e)).
  { unfold shr_fexp. rewrite F. cbn [shr_record_of_loc].
    destruct (e - e') as [ | sh | sh ] eqn:S; try lia.
    - rewrite Z.pow_0_r, Z.mul_1_r. cbn [shr]. f_equal. lia.
    - cbn [shr]. rewrite iter_shr_1_exact by lia. f_equal. lia. }
  rewrite S1. cbn [shr_m loc_of_shr_record round_nearest_even].
  assert (S2 : shr_fexp prec emax (Zpos m) e loc_Exact =
               (Build_shr_record (Zpos m) false false, e)).
  { unfold shr_fexp. cbn [Zdigits2]. rewrite C, Z.sub_diag. reflexivity. }
  rewrite S2. cbn [shr_m]. now rewrite L.
Qed.

(** ** Rounding to an integer, and the sign of a read-back *)

Lemma round_half_even_nonneg n d :
  0 <= n -> (0 < d) -> (0 <= round_half_even n d).
Proof.
  intros Hn Hd. unfold round_half_even.
  assert (0 <= n / d) by (apply Z.div_pos; lia).
  destruct (2 * (n mod d) ?= d); [ destruct (Z.even _) | | ]; lia.
Qed.

Lemma round_half_even_nearest n d :
  0 < d ->
  (Z.abs (2 * n - 2 * round_half_even n d * d) <= d).
Proof.
  intros Hd. unfold round_half_even.
  pose proof (Z.div_mod n d ltac:(lia)) as E.
  pose proof (Z.mod_pos_bound n d Hd) as B.
  set (q := (n / d)) in *. set (r := (n mod d)) in *.
  destruct (Z.compare_spec (2 * r) d) as [C | C | C];
    [ destruct (Z.even q) | | ]; nia.
Qed.

Lemma nearest_double_signed s k d :
  0 < d -> signed s (nearest_double s k d).
Proof.
  intros Hd. unfold nearest_double.
  destruct k as [ | p | p ]; try reflexivity.
  unfold SFdiv_core_binary.
  set (m' := match (_ - _ - _) with Zpos _ => _ | Z0 => _ | Zneg _ => _ end).
  assert (Hm : (0 <= m')).
  { unfold m'. destruct (_ - _ - _); try lia. apply Z.shiftl_nonneg. lia. }
  pose proof (Z.div_pos m' d Hm Hd) as Hq.
  unfold Z.div in Hq. destruct (Z.div_eucl m' d) as [q r].
  apply binary_round_aux_signed. exact Hq.
Qed.

Lemma decimal_digits_nonneg m e : (0 <= decimal_digits m e 2).
Proof.
  unfold decimal_digits.
  destruct (0 <=? e) eqn:E.
  - apply Z.leb_le in E.
    assert (0 < 2 ^ e) by (apply Z.pow_pos_nonneg; lia). nia.
  - apply Z.leb_gt in E.
    apply round_half_even_nonneg; [ lia | apply Z.pow_pos_nonneg; lia ].
Qed.

Lemma decimal_digits_nearest m e :
  nearest_hundredths m e (decimal_digits m e 2).
Proof.
  unfold nearest_hundredths, decimal_digits.
  change (10 ^ 2) with 100.
  destruct (0 <=? e) eqn:E; [ reflexivity | ].
  apply Z.leb_gt in E.
  apply round_half_even_nearest, Z.pow_pos_nonneg; lia.
Qed.

(** ** [round(x, 2)] never raises *)

Lemma bounded_mantissa m e : bounded prec emax m e = true -> Zpos m < 2 ^ 53.
Proof.
  intros B. unfold bounded, canonical_mantissa in B.
  apply andb_true_iff in B as [C _]. apply Z.eqb_eq in C.
  pose proof (digits2_pos_upper m) as U.
  assert (D : Zpos (digits2_pos m) <= 53).
  { unfold fexp, SpecFloat.emin, prec, emax in C. lia. }
  apply Z.lt_le_trans with (1 := U). apply Z.pow_le_mono_r; lia.
Qed.

Lemma decimal_digits_small m e :
  e < 0 -> bounded prec emax m e = true ->
  0 <= decimal_digits m e 2 < 2 ^ 59.
Proof.
  intros He B. apply bounded_mantissa in B.
  unfold decimal_digits. replace (0 <=? e) with false by (symmetry; apply Z.leb_gt; lia).
  change (10 ^ 2) with 100.
  assert (P : 2 <= 2 ^ (- e)).
  { change 2 with (2 ^ 1) at 1. apply Z.pow_le_mono_r; lia. }
  unfold round_half_even.
  assert (Q : 0 <= Zpos m * 100 / 2 ^ (- e) <= Zpos m * 100 / 2).
  { split; [ apply Z.div_pos; lia | apply Z.div_le_compat_l; lia ]. }
  assert (H : Zpos m * 100 / 2 < 50 * 2 ^ 53).
  { apply Z.div_lt_upper_bound; lia. }
  change (2 ^ 59) with (64 * 2 ^ 53).
  destruct (2 * (Zpos m * 100 mod 2 ^ (- e)) ?= 2 ^ (- e));
    [ destruct (Z.even _) | | ]; lia.
Qed.

Lemma round_finite x s m e :
  Prim2SF x = S754_finite s m e ->
  round x 2 = Returns (SF2Prim (nearest_double s (decimal_digits m e 2) 100)).
Proof.
  intros E. unfold round. rewrite E. change (10 ^ 2) with 100.
  pose proof (Prim2SF_valid x) as V. rewrite E in V. cbn [valid_binary] in V.
  destruct (Z_le_gt_dec 0 e) as [He | He].
  - assert (D : decimal_digits m e 2 = Zpos m * 2 ^ e * 100).
    { unfold decimal_digits.
      now replace (0 <=? e) with true by (symmetry; apply Z.leb_le; lia). }
    rewrite D, nearest_double_exact by assumption. reflexivity.
  - pose proof (nearest_double_small s (decimal_digits m e 2)
                  (decimal_digits_small m e ltac:(lia) V)) as N.
    destruct (nearest_double s (decimal_digits m e 2) 100) as [ | s' | | ];
      try reflexivity.
    now elim (N s').
Qed.

Lemma round_not_finite x :
  (forall s m e, Prim2SF x <> S754_finite s m e) -> round x 2 = Returns x.
Proof.
  intros H. unfold round.
  destruct (Prim2SF x) as [ | | | s m e]; try reflexivity.
  now elim (H s m e).
Qed.

Lemma round_returns x : exists rounded, round x 2 = Returns rounded.
Proof.
  destruct (Prim2SF x) as [s | s | | s m e] eqn:E.
  - exists x. apply round_not_finite. congruence.
  - exists x. apply round_not_finite. congruence.
  - exists x. apply round_not_finite. congruence.
  - eexists. now apply (round_finite x s m e).
Qed.

End FloatFacts.

(* ================================================================== *)
(** * Invariants of the calculator *)
(* ================================================================== *)

Module EstimateFacts.
Import PyStr PyFloat Estimate FloatFacts.
Local Open Scope float_scope.

Lemma eqb_eq s t : eqb s t = true <-> s = t.
Proof.
  revert t. induction s as [ | c s IH]; intros [ | d t]; simpl;
    try (split; [discriminate | congruence]); try tauto.
  rewrite andb_true_iff, N.eqb_eq, IH. split.
  - intros [-> ->]. reflexivity.
  - intros E. injection E as -> ->. auto.
Qed.

Lemma dict_get_absent {V : Type} (d : list (pystr * V)) key default :
  ~ In key (map fst d) -> dict_get d key default = default.
Proof.
  induction d as [ | [k v] d IH]; simpl; intros H; [reflexivity | ].
  destruct (eqb key k) eqn:E.
  - apply eqb_eq in E. subst. tauto.
  - apply IH. tauto.
Qed.

Lemma surcharge_factor a : factor (to_float (dict_get addon_map a (PyInt 0))).
Proof.
  unfold addon_map, dict_get.
  repeat match goal with
         | |- context [if ?b then _ else _] => destruct b
         end; vm_compute; auto.
Qed.

Lemma multiplier_factor ul t : factor (to_float (PyInt (base_multiplier ul t))).
Proof.
  unfold base_multiplier. destruct (eqb _ _); vm_compute; auto.
Qed.

Lemma float_mul_signed bp n :
  is_finite bp = true -> factor (to_float n) ->
  signed (sign_of (Prim2SF bp)) (Prim2SF (float_mul bp n)).
Proof.
  intros Hbp [Hs Hr]. unfold float_mul. rewrite mul_spec.
  apply is_finite_real in Hbp.
  replace (sign_of (Prim2SF bp)) with (xorb (sign_of (Prim2SF bp)) false)
    by apply xorb_false_r.
  apply SFmul_signed; auto using real_signed.
Qed.

Lemma add_signed s x y :
  signed s (Prim2SF x) -> signed s (Prim2SF y) -> signed s (Prim2SF (x + y)).
Proof. intros Hx Hy. rewrite add_spec. now apply SFadd_signed. Qed.

Lemma add_addons_signed bp l : forall total,
  is_finite bp = true ->
  signed (sign_of (Prim2SF bp)) (Prim2SF total) ->
  signed (sign_of (Prim2SF bp)) (Prim2SF (add_addons bp l total)).
Proof.
  induction l as [ | a l IH]; intros total Hbp Ht; cbn [add_addons];
    [exact Ht | ].
  apply IH; [exact Hbp | ].
  apply add_signed; [exact Ht | ].
  apply float_mul_signed; [exact Hbp | apply surcharge_factor].
Qed.

Lemma estimate_total_signed ul req :
  is_finite (box_price req) = true ->
  signed (sign_of (Prim2SF (box_price req))) (Prim2SF (estimate_total ul req)).
Proof.
  intros Hbp. unfold estimate_total.
  apply add_addons_signed; [exact Hbp | ].
  apply float_mul_signed; [exact Hbp | apply multiplier_factor].
Qed.

Lemma add_addons_app bp l1 l2 total :
  add_addons bp (l1 ++ l2) total = add_addons bp l2 (add_addons bp l1 total).
Proof.
  revert total. induction l1 as [ | a l1 IH]; intros total;
    cbn [add_addons app]; auto.
Qed.

(** Adding the zero of the same sign changes nothing. *)
Lemma add_zero_same_sign s x z :
  signed s (Prim2SF x) -> Prim2SF z = S754_zero s -> x + z = x.
Proof.
  intros Hx Hz. apply Prim2SF_inj. rewrite add_spec, Hz.
  destruct (Prim2SF x) as [s1 | s1 | | s1 m1 e1]; simpl in *; subst;
    try reflexivity; try tauto.
  destruct s; reflexivity.
Qed.

Lemma float_mul_zero bp :
  is_finite bp = true ->
  Prim2SF (float_mul bp (PyInt 0)) = S754_zero (sign_of (Prim2SF bp)).
Proof.
  intros Hbp. apply is_finite_real in Hbp.
  unfold float_mul. rewrite mul_spec.
  change (Prim2SF (to_float (PyInt 0))) with (S754_zero false).
  destruct (Prim2SF bp) as [s | s | | s m e]; simpl in *; try tauto;
    now rewrite xorb_false_r.
Qed.

End EstimateFacts.


(* ================================================================== *)
(** * The calculator meets its description *)
(* ================================================================== *)

Module EstimateSpec.
Import PyStr Py PyFloat Estimate FloatFacts EstimateFacts.
Local Open Scope float_scope.

Lemma add_addons_fold bp l : forall total,
  add_addons bp l total =
  fold_left PrimFloat.add (map (fun label => float_mul bp (fraction label)) l) total.
Proof.
  induction l as [ | a l IH]; intros total; cbn [add_addons map fold_left].
  - reflexivity.
  - now rewrite IH.
Qed.


(** C2: the base multiplier is [2] exactly when the lowered tier equals
    ["shikai"] (so for ["Shikai"], ["SHIKAI"] and ["shikai"]) and [4] for
    every other tier, the empty string included; there is no third value,
    the two are the doubles [2.0] and [4.0] once multiplied, and the
    multiplier depends on the tier alone: with no add-on the total is the
    box price times it. *)
Theorem base_multiplier_two_valued ul tier :
  (base_multiplier ul tier = 2%Z <-> lower ul tier = str "shikai")
  /\ (base_multiplier ul tier = 4%Z <-> lower ul tier <> str "shikai")
  /\ (base_multiplier ul tier = 2%Z \/ base_multiplier ul tier = 4%Z)
  /\ to_float (PyInt 2) = 2 /\ to_float (PyInt 4) = 4
  /\ base_multiplier ul (str "Shikai") = 2%Z
  /\ base_multiplier ul (str "SHIKAI") = 2%Z
  /\ base_multiplier ul (str "shikai") = 2%Z
  /\ base_multiplier ul (str "") = 4%Z
  /\ base_multiplier ul (str "bankai") = 4%Z
  /\ forall bp,
       estimate_total ul {| box_price := bp; tier := tier; addons := [] |} =
       bp * to_float (PyInt (base_multiplier ul tier)).
Proof.
  assert (T : forall bp,
             estimate_total ul {| box_price := bp; tier := tier; addons := [] |} =
             bp * to_float (PyInt (base_multiplier ul tier))) by reflexivity.
  revert T. unfold base_multiplier.
  destruct (eqb (lower ul tier) (str "shikai")) eqn:E; intros T.
  - apply eqb_eq in E.
    repeat split; try reflexivity; try (intros; congruence); auto.
  - assert (N : lower ul tier <> str "shikai").
    { intros H. apply eqb_eq in H. congruence. }
    repeat split; try reflexivity; try (intros; congruence); auto;
      discriminate.
Qed.

Lemma known_or_default {V : Type} (d : list (pystr * V)) key default :
  In key (map fst d) \/ dict_get d key default = default.
Proof.
  induction d as [ | [k v] d IH]; cbn [dict_get map fst In]; [now right | ].
  destruct (eqb key k) eqn:E.
  - left. left. apply eqb_eq in E. congruence.
  - destruct IH; auto.
Qed.

(** C3: the surcharge table maps "OSL Effects" to 0.20, "Weathering /
    Battle Damage" to 0.15, "Advanced Basing" to 0.15, "Fine Freehand
    Details" to 0.25, "Conversions / Kitbashing" to 0.30 and
    "Magnetization" to 0.10, and holds nothing else: its keys are these
    six, and a lookup of any other label gives the default. *)
Theorem addon_map_entries :
  known_addons =
    [ str "OSL Effects"; str "Weathering / Battle Damage"; str "Advanced Basing";
      str "Fine Freehand Details"; str "Conversions / Kitbashing";
      str "Magnetization" ]
  /\ fraction (str "OSL Effects") = PyFloat 0.20
  /\ fraction (str "Weathering / Battle Damage") = PyFloat 0.15
  /\ fraction (str "Advanced Basing") = PyFloat 0.15
  /\ fraction (str "Fine Freehand Details") = PyFloat 0.25
  /\ fraction (str "Conversions / Kitbashing") = PyFloat 0.30
  /\ fraction (str "Magnetization") = PyFloat 0.10
  /\ forall label default,
       In label known_addons \/ dict_get addon_map label default = default.
Proof.
  repeat split; try reflexivity.
  intros label default. apply known_or_default.
Qed.

Lemma unknown_addon_total ul req label :
  is_finite (box_price req) = true ->
  ~ In label known_addons ->
  estimate_total ul (with_addon req label) = estimate_total ul req.
Proof.
  intros Hbp Hl. unfold estimate_total, with_addon.
  cbn [box_price tier addons].
  rewrite add_addons_app. cbn [add_addons].
  rewrite (dict_get_absent addon_map label (PyInt 0) Hl).
  apply add_zero_same_sign with (s := sign_of (Prim2SF (box_price req))).
  - apply (estimate_total_signed ul req Hbp).
  - now apply float_mul_zero.
Qed.

(** C4: a label that is not in the table contributes zero at every
    finite box price: [estimate(100, "shikai", ["Nonexistent
    Addon"])] is [200.0], and for every finite box price, appending an
    unknown label to any add-on list leaves the response unchanged. *)
Theorem unknown_addon_contributes_zero ul :
  estimate ul {| box_price := 100; tier := str "shikai";
                 addons := [str "Nonexistent Addon"] |}
  = Returns {| estimated_total := 200 |}
  /\ forall req label,
       is_finite (box_price req) = true ->
       ~ In label known_addons ->
       estimate ul (with_addon req label) = estimate ul req.
Proof.
  split.
  - vm_compute. reflexivity.
  - intros req label Hbp Hl. unfold estimate.
    now rewrite unknown_addon_total.
Qed.

Lemma unknown_addon_contributes_zero_witness :
  estimate (fun s => s)
    (with_addon {| box_price := -12.5; tier := str "bankai";
                   addons := [str "Magnetization"] |} (str "Gold Leaf")) =
  estimate (fun s => s)
    {| box_price := -12.5; tier := str "bankai"; addons := [str "Magnetization"] |}.
Proof.
  apply (proj2 (unknown_addon_contributes_zero (fun s => s))).
  - vm_compute. reflexivity.
  - vm_compute. intuition discriminate.
Defined.

(** The box price must be a real number for that: at an infinite price
    the surcharge of an unknown label is [inf * 0], which is NaN. *)
Remark unknown_addon_at_infinite_price ul :
  estimate ul {| box_price := infinity; tier := str "shikai"; addons := [] |}
  = Returns {| estimated_total := infinity |}
  /\ estimate ul {| box_price := infinity; tier := str "shikai";
                    addons := [str "Nonexistent Addon"] |}
     = Returns {| estimated_total := nan |}.
Proof. split; vm_compute; reflexivity. Qed.

(** C4, beyond the finite prices: at an infinite box price the unknown
    label turns the estimate from infinity into NaN. *)
Lemma unknown_addon_changes_infinite_estimate :
  ~ In (str "Nonexistent Addon") known_addons
  /\ estimate (fun t => t)
       {| box_price := infinity; tier := str "shikai"; addons := [] |}
     = Returns {| estimated_total := infinity |}
  /\ estimate (fun t => t)
       (with_addon
          {| box_price := infinity; tier := str "shikai"; addons := [] |}
          (str "Nonexistent Addon"))
     = Returns {| estimated_total := nan |}
  /\ estimate (fun t => t)
       (with_addon
          {| box_price := infinity; tier := str "shikai"; addons := [] |}
          (str "Nonexistent Addon"))
     <> estimate (fun t => t)
          {| box_price := infinity; tier := str "shikai"; addons := [] |}.
Proof.
  split; [ vm_compute; intuition discriminate | ].
  split; [ vm_compute; reflexivity | ].
  split; [ vm_compute; reflexivity | ].
  intros H.
  apply (f_equal (fun o => match o with
                           | Returns r => is_nan (estimated_total r)
                           | Raises _ => false
                           end)) in H.
  vm_compute in H. discriminate.
Qed.

(** C5: the surcharge is applied once per occurrence in the list:
    [estimate(50, "shikai", ["Magnetization", "Magnetization"])] is
    [110.0] where one occurrence gives [105.0], and in general a label
    supplied twice adds its surcharge to the total twice. *)
Theorem duplicate_addons_count_twice ul :
  estimate ul {| box_price := 50; tier := str "shikai";
                 addons := [str "Magnetization"; str "Magnetization"] |}
  = Returns {| estimated_total := 110 |}
  /\ estimate ul {| box_price := 50; tier := str "shikai";
                    addons := [str "Magnetization"] |}
     = Returns {| estimated_total := 105 |}
  /\ forall req label,
       estimate_total ul (with_addon (with_addon req label) label) =
       estimate_total ul req
       + float_mul (box_price req) (fraction label)
       + float_mul (box_price req) (fraction label).
Proof.
  split; [ vm_compute; reflexivity | ].
  split; [ vm_compute; reflexivity | ].
  intros req label. unfold estimate_total, with_addon.
  cbn [box_price tier addons].
  now rewrite !add_addons_app.
Qed.



(** A total beyond the range of binary64 is an infinity before rounding
    and stays one. *)
Remark estimate_overflow ul :
  estimate ul {| box_price := 1e308; tier := str "bankai"; addons := [] |}
  = Returns {| estimated_total := infinity |}.
Proof. vm_compute. reflexivity. Qed.

(** C8: the calculator is total: for every request, whatever its box
    price (negative, infinite, NaN), tier (empty or unknown) and add-on
    list, [estimate] returns a response holding a float and raises
    nothing, the [OverflowError] of [round] included; when the box price
    is a real number that float is a number, not NaN. *)
Theorem estimate_returns_a_number ul req :
  exists total,
    estimate ul req = Returns {| estimated_total := total |}
    /\ (is_finite (box_price req) = true -> is_nan total = false).
Proof.
  unfold estimate.
  set (total := estimate_total ul req).
  assert (Hs : is_finite (box_price req) = true ->
               signed (sign_of (Prim2SF (box_price req))) (Prim2SF total))
    by apply estimate_total_signed.
  destruct (Prim2SF total) as [s | s | | s m e] eqn:E.
  1-3: exists total;
       rewrite round_not_finite by (intros; rewrite E; discriminate);
       (split; [ reflexivity | ]); intros Hbp; specialize (Hs Hbp);
       destruct (is_nan total) eqn:N; [ | reflexivity ];
       apply Prim2SF_nan_iff in N; rewrite N in E; try discriminate;
       exact (False_ind _ Hs).
  rewrite (round_finite total s m e E). eexists. split; [ reflexivity | ].
  intros _. apply SF2Prim_not_nan.
  apply signed_not_nan with (s := s), nearest_double_signed. reflexivity.
Qed.

Lemma estimate_returns_a_number_witness :
  exists total,
    estimate (fun t => t)
      {| box_price := -80; tier := str "";
         addons := [str "Magnetization"; str "?"; str "OSL Effects"] |} =
    Returns {| estimated_total := total |} /\ is_nan total = false.
Proof.
  destruct (estimate_returns_a_number (fun t => t)
              {| box_price := -80; tier := str "";
                 addons := [str "Magnetization"; str "?"; str "OSL Effects"] |})
    as [total [E N]].
  exists total. split; [ exact E | ].
  apply N. vm_compute. reflexivity.
Defined.

End EstimateSpec.

(* ================================================================== *)
(** * The contact handler meets its description *)
(* ================================================================== *)

Module ContactSpec.
Import PyStr Py Json Contact ContactWords.

(** ** Stripping and splitting *)

Lemma lstrip_head s c t : lstrip s = c :: t -> is_space c = false.
Proof.
  induction s as [ | d s IH]; cbn [lstrip]; [discriminate | ].
  destruct (is_space d) eqn:E; [exact IH | ].
  intros H. injection H as <- _. exact E.
Qed.

Lemma lstrip_suffix s : exists p, s = p ++ lstrip s.
Proof.
  induction s as [ | d s [p IH]]; cbn [lstrip]; [now exists [] | ].
  destruct (is_space d).
  - exists (d :: p). cbn [app]. now rewrite <- IH.
  - now exists [].
Qed.

Lemma lstrip_spaces s : forallb is_space s = true -> lstrip s = [].
Proof.
  induction s as [ | d s IH]; cbn [forallb lstrip]; [reflexivity | ].
  intros H. apply andb_true_iff in H as [-> H]. auto.
Qed.

Lemma strip_prefix s : exists q, lstrip s = strip s ++ q.
Proof.
  unfold strip, rstrip.
  destruct (lstrip_suffix (rev (lstrip s))) as [p E].
  exists (rev p).
  rewrite <- rev_app_distr, <- E. symmetry. apply rev_involutive.
Qed.

Lemma strip_not_padded s : padded (strip s) = false.
Proof.
  destruct (strip s) as [ | c t] eqn:E; [reflexivity | ].
  cbn [padded]. apply orb_false_iff. split.
  - destruct (strip_prefix s) as [q Q]. rewrite E in Q.
    now apply lstrip_head in Q.
  - unfold strip, rstrip in E.
    destruct (lstrip (rev (lstrip s))) as [ | d u] eqn:L; [discriminate | ].
    cbn [rev] in E. rewrite <- E, last_last.
    now apply lstrip_head in L.
Qed.

Lemma strip_spaces s : forallb is_space s = true -> strip s = [].
Proof.
  intros H. unfold strip. now rewrite (lstrip_spaces s H).
Qed.

Lemma split_spaces sep s :
  forallb (fun c => N.eqb c sep || is_space c) s = true ->
  Forall (fun seg => forallb is_space seg = true) (split sep s).
Proof.
  induction s as [ | c s IH]; cbn [forallb split]; intros H.
  - repeat constructor.
  - apply andb_true_iff in H as [Hc H]. specialize (IH H).
    destruct (N.eqb c sep); [ constructor; auto | ].
    cbn [orb] in Hc.
    destruct (split sep s) as [ | seg segs]; [ repeat constructor; cbn; now rewrite Hc | ].
    inversion IH as [ | ? ? Hseg Hsegs ]; subst.
    constructor; [ cbn [forallb]; now rewrite Hc | exact Hsegs ].
Qed.

(** Stripping then dropping the empty segments, the order of the
    description, gives the list the comprehension builds. *)
Lemma map_strip_filter l :
  map strip (filter (fun a => truthy (strip a)) l) =
  filter truthy (map strip l).
Proof.
  induction l as [ | a l IH]; cbn [map filter]; [reflexivity | ].
  destruct (truthy (strip a)); cbn [map]; now rewrite IH.
Qed.

Lemma addons_list_split addons :
  addons_list addons =
  filter truthy (map strip (split 44%N (addons_text addons))).
Proof.
  unfold addons_list. rewrite map_strip_filter.
  destruct addons as [ [ | c a] | ]; reflexivity.
Qed.

Lemma split_no_sep sep s : ~ In sep s -> split sep s = [s].
Proof.
  induction s as [ | c s IH]; cbn [split]; intros H; [ reflexivity | ].
  destruct (N.eqb c sep) eqn:E.
  - apply N.eqb_eq in E. subst. elim H. now left.
  - rewrite IH; [ reflexivity | ]. intros I. apply H. now right.
Qed.

Lemma split_cons sep p rest :
  ~ In sep p -> split sep (p ++ sep :: rest) = p :: split sep rest.
Proof.
  induction p as [ | c p IH]; cbn [app split]; intros H.
  - now rewrite N.eqb_refl.
  - destruct (N.eqb c sep) eqn:E.
    + apply N.eqb_eq in E. subst. elim H. now left.
    + rewrite IH; [ reflexivity | ]. intros I. apply H. now right.
Qed.

Lemma split_join sep parts :
  parts <> [] -> Forall (fun p => ~ In sep p) parts ->
  split sep (join sep parts) = parts.
Proof.
  induction parts as [ | p [ | q rest] IH]; intros N F; [ congruence | | ].
  - cbn [join]. apply split_no_sep. now inversion F.
  - change (join sep (p :: q :: rest)) with (p ++ sep :: join sep (q :: rest)).
    inversion F as [ | ? ? Hp Hrest ]; subst.
    rewrite split_cons by exact Hp. f_equal.
    apply IH; [ discriminate | exact Hrest ].
Qed.

Lemma split_nonempty sep s : split sep s <> [].
Proof.
  destruct s as [ | c s]; cbn [split]; [ discriminate | ].
  destruct (N.eqb c sep); [ discriminate | ].
  destruct (split sep s); discriminate.
Qed.

Lemma split_segments_no_sep sep s :
  Forall (fun seg => ~ In sep seg) (split sep s).
Proof.
  induction s as [ | c s IH]; cbn [split].
  - repeat constructor. auto.
  - destruct (N.eqb c sep) eqn:E; [ constructor; auto | ].
    apply N.eqb_neq in E.
    destruct (split sep s) as [ | seg segs]; [ repeat constructor | ].
    + intros [I | []]. congruence.
    + inversion IH as [ | ? ? Hseg Hsegs ]; subst.
      constructor; [ | exact Hsegs ].
      intros [I | I]; [ congruence | contradiction ].
Qed.

Lemma lstrip_incl s c : In c (lstrip s) -> In c s.
Proof.
  destruct (lstrip_suffix s) as [p E]. intros I.
  rewrite E. apply in_or_app. now right.
Qed.

Lemma strip_incl s c : In c (strip s) -> In c s.
Proof.
  intros I. apply lstrip_incl.
  destruct (strip_prefix s) as [q E]. rewrite E.
  apply in_or_app. now left.
Qed.

Lemma join_split sep s : join sep (split sep s) = s.
Proof.
  induction s as [ | c s IH]; cbn [split]; [ reflexivity | ].
  destruct (N.eqb c sep) eqn:E.
  - apply N.eqb_eq in E. subst c.
    destruct (split sep s) as [ | seg segs] eqn:S.
    + now elim (split_nonempty sep s).
    + change (join sep ([] :: seg :: segs)) with (sep :: join sep (seg :: segs)).
      now rewrite IH.
  - destruct (split sep s) as [ | seg segs] eqn:S.
    + now elim (split_nonempty sep s).
    + destruct segs as [ | seg' segs'].
      * cbn [join] in *. now rewrite IH.
      * change (join sep ((c :: seg) :: seg' :: segs'))
          with (c :: join sep (seg :: seg' :: segs')).
        now rewrite IH.
Qed.

Lemma lstrip_spaces_prefix s :
  exists p, s = p ++ lstrip s /\ forallb is_space p = true.
Proof.
  induction s as [ | d s (p & E & P)]; cbn [lstrip]; [ now exists [] | ].
  destruct (is_space d) eqn:D.
  - exists (d :: p). cbn [app forallb]. rewrite D, P. split; [ | reflexivity ].
    now rewrite <- E.
  - now exists [].
Qed.

Lemma forallb_rev {A : Type} (f : A -> bool) l :
  forallb f (rev l) = forallb f l.
Proof.
  induction l as [ | x l IH]; cbn [rev forallb]; [ reflexivity | ].
  rewrite forallb_app, IH. cbn [forallb]. rewrite andb_true_r. apply andb_comm.
Qed.

Lemma strip_spaces_suffix s :
  exists q, lstrip s = strip s ++ q /\ forallb is_space q = true.
Proof.
  unfold strip, rstrip.
  destruct (lstrip_spaces_prefix (rev (lstrip s))) as (p & E & P).
  exists (rev p). split.
  - rewrite <- rev_app_distr, <- E. symmetry. apply rev_involutive.
  - now rewrite forallb_rev.
Qed.

Lemma lstrip_app_spaces l x :
  forallb is_space l = true -> lstrip (l ++ x) = lstrip x.
Proof.
  induction l as [ | c l IH]; cbn [forallb app lstrip]; [ reflexivity | ].
  intros H. apply andb_true_iff in H as [-> H]. auto.
Qed.

Lemma spaces_no_comma l : forallb is_space l = true -> ~ In 44%N l.
Proof.
  intros H I. rewrite forallb_forall in H. specialize (H _ I). discriminate.
Qed.

(** Stripping a segment leaves its core. *)
Lemma strip_segment s : segment_ok s -> strip (segment_text s) = core s.
Proof.
  intros (L & T & P & _). unfold segment_text.
  destruct (core s) as [ | c t] eqn:C.
  - apply strip_spaces. cbn [app]. rewrite forallb_app, L, T. reflexivity.
  - cbn [padded] in P. apply orb_false_iff in P as [P1 P2].
    unfold strip. rewrite lstrip_app_spaces by exact L.
    cbn [app lstrip]. rewrite P1. unfold rstrip.
    change (c :: t ++ trailing s) with ((c :: t) ++ trailing s).
    rewrite rev_app_distr, lstrip_app_spaces by (now rewrite forallb_rev).
    destruct (rev (c :: t)) as [ | d u] eqn:R.
    + apply (f_equal (@List.length _)) in R. rewrite length_rev in R.
      discriminate.
    + assert (E : c :: t = rev u ++ [d]).
      { rewrite <- (rev_involutive (c :: t)), R. reflexivity. }
      rewrite E, last_last in P2.
      cbn [lstrip]. rewrite P2. cbn [rev]. now rewrite E.
Qed.

Lemma segment_text_no_comma s : segment_ok s -> ~ In 44%N (segment_text s).
Proof.
  intros (L & T & _ & C). unfold segment_text. intros I.
  apply in_app_or in I as [I | I]; [ exact (spaces_no_comma _ L I) | ].
  apply in_app_or in I as [I | I]; [ exact (C I) | exact (spaces_no_comma _ T I) ].
Qed.

(** The parser on a text given segment by segment. *)
Lemma addons_list_segments segments :
  Forall segment_ok segments ->
  addons_list (Some (join 44%N (map segment_text segments)))
  = filter truthy (map core segments).
Proof.
  intros F. rewrite addons_list_split. cbn [addons_text].
  destruct segments as [ | s segs]; [ reflexivity | ].
  rewrite split_join.
  - f_equal. rewrite map_map. apply map_ext_in.
    intros x I. apply strip_segment.
    rewrite Forall_forall in F. now apply F.
  - discriminate.
  - apply Forall_forall. intros x I.
    apply in_map_iff in I as (y & <- & I).
    apply segment_text_no_comma. rewrite Forall_forall in F. now apply F.
Qed.

(** Every text is made of such segments. *)
Lemma text_segments text :
  exists segments,
    Forall segment_ok segments
    /\ text = join 44%N (map segment_text segments).
Proof.
  assert (S : forall seg, ~ In 44%N seg ->
              exists s, segment_ok s /\ segment_text s = seg).
  { intros seg N.
    destruct (lstrip_spaces_prefix seg) as (p & E & P).
    destruct (strip_spaces_suffix seg) as (q & E' & Q).
    exists {| leading := p; core := strip seg; trailing := q |}.
    split.
    - repeat split; cbn [leading trailing core]; auto.
      + apply strip_not_padded.
      + intros I. apply N. now apply strip_incl.
    - unfold segment_text. cbn [leading trailing core].
      now rewrite <- E', <- E. }
  assert (L : forall segs, Forall (fun seg => ~ In 44%N seg) segs ->
              exists segments,
                Forall segment_ok segments /\ map segment_text segments = segs).
  { induction 1 as [ | seg segs N _ (segments & F & M)].
    - now exists [].
    - destruct (S seg N) as (s & O & T).
      exists (s :: segments). split; [ now constructor | ].
      cbn [map]. now rewrite T, M. }
  destruct (L _ (split_segments_no_sep 44%N text)) as (segments & F & M).
  exists segments. split; [ exact F | ].
  rewrite M. symmetry. apply join_split.
Qed.

(** C10: the handler parses the optional [addons] field by splitting on
    commas, stripping each segment and dropping the empty ones: every
    text is a comma-joined run of segments, each some whitespace around a
    core, and the parser returns the cores that are not empty, in order
    (so " OSL Effects , ,Magnetization,, " gives the two labels); an
    absent field, or a string of commas and whitespace only, gives the
    empty list; so no label of the list, which is the one the payload
    carries, is empty or starts or ends with whitespace. *)
Theorem addons_list_clean :
  (forall segments,
     Forall segment_ok segments ->
     addons_list (Some (join 44%N (map segment_text segments)))
     = filter truthy (map core segments))
  /\ (forall text,
        exists segments,
          Forall segment_ok segments
          /\ text = join 44%N (map segment_text segments))
  /\ addons_list (Some (str " OSL Effects , ,Magnetization,, "))
     = [str "OSL Effects"; str "Magnetization"]
  /\ (forall addons,
        addons_list addons =
        filter truthy (map strip (split 44%N (addons_text addons))))
  /\ addons_list None = []
  /\ (forall s,
        forallb (fun c => N.eqb c 44 || is_space c) s = true ->
        addons_list (Some s) = [])
  /\ (forall addons,
        Forall (fun label => truthy label = true /\ padded label = false)
          (addons_list addons))
  /\ forall form, payload_addons (payload_of form) = addons_list (addons form).
Proof.
  split; [ exact addons_list_segments | ].
  split; [ exact text_segments | ].
  split; [ vm_compute; reflexivity | ].
  split; [ exact addons_list_split | ].
  split; [ reflexivity | ].
  split; [ | split; [ | reflexivity ] ].
  - intros s H. rewrite addons_list_split. cbn [addons_text].
    apply split_spaces in H.
    induction H as [ | seg segs Hseg _ IH]; cbn [map filter]; [reflexivity | ].
    now rewrite (strip_spaces seg Hseg).
  - intros addons. rewrite addons_list_split.
    apply Forall_forall. intros label H.
    apply filter_In in H as [H T]. split; [exact T | ].
    apply in_map_iff in H as [seg [<- _]]. apply strip_not_padded.
Qed.

Lemma addons_list_clean_witness :
  addons_list
    (Some (join 44%N
             (map segment_text
                [ {| leading := str "  "; core := str "Advanced Basing";
                     trailing := str "" |};
                  {| leading := str " "; core := str ""; trailing := str "" |};
                  {| leading := str ""; core := str "Fine Freehand Details";
                     trailing := str " " |} ])))
  = filter truthy
      (map core
         [ {| leading := str "  "; core := str "Advanced Basing";
              trailing := str "" |};
           {| leading := str " "; core := str ""; trailing := str "" |};
           {| leading := str ""; core := str "Fine Freehand Details";
              trailing := str " " |} ]).
Proof.
  apply (proj1 addons_list_clean).
  repeat constructor; try (vm_compute; intuition discriminate).
Defined.

(** ** Persistence *)

Lemma strings_render l : dumps_error (VList (map VStr l)) = None.
Proof. induction l as [ | x l IH]; [ reflexivity | exact IH ]. Qed.

Lemma file_infos_render l : dumps_error (VList (map file_info_dict l)) = None.
Proof.
  induction l as [ | x l IH]; [ reflexivity | ].
  cbn [map]. unfold file_info_dict at 1.
  destruct (info_filename x), (info_content_type x), (info_size x); exact IH.
Qed.

(** The dict the handler builds always renders. *)
Lemma payload_renders p : dumps_error (VDict (payload_dict p)) = None.
Proof.
  unfold payload_dict.
  pose proof (strings_render (payload_addons p)) as A.
  pose proof (file_infos_render (payload_files p)) as F.
  cbn [dumps_error] in *. 
  destruct (payload_tier p); cbn [optional_str]; rewrite A, F; reflexivity.
Qed.

(** Rendering the response looks at the id, then at the payload. *)
Lemma response_renders inserted_id payload :
  dumps_error (response_content inserted_id payload)
  = match dumps_error inserted_id with
    | Some exc => Some exc
    | None => dumps_error (VDict payload)
    end.
Proof.
  unfold response_content. cbn [dumps_error].
  destruct (dumps_error inserted_id); [ reflexivity | ].
  now destruct (_ payload).
Qed.

Lemma JSONResponse_renders inserted_id payload :
  dumps_error inserted_id = None -> dumps_error (VDict payload) = None ->
  JSONResponse (response_content inserted_id payload)
  = Returns (response_content inserted_id payload).
Proof.
  intros I P. unfold JSONResponse. now rewrite response_renders, I, P.
Qed.




End ContactSpec.

(* ================================================================== *)
(** * More about the calculator *)
(* ================================================================== *)

Module EstimateMore.
Import PyStr Py PyFloat Estimate EstimateWords FloatFacts EstimateFacts.
Local Open Scope float_scope.

(** ** Unknown labels anywhere in the list *)

Lemma known_false label : known label = false -> ~ In label known_addons.
Proof.
  unfold known. intros H I.
  assert (existsb (eqb label) known_addons = true).
  { apply existsb_exists. exists label. split; [ exact I | now apply eqb_eq ]. }
  congruence.
Qed.

Lemma add_addons_filter bp l : forall total,
  is_finite bp = true ->
  signed (sign_of (Prim2SF bp)) (Prim2SF total) ->
  add_addons bp (filter known l) total = add_addons bp l total.
Proof.
  induction l as [ | a l IH]; intros total Hbp Ht; cbn [filter add_addons];
    [ reflexivity | ].
  destruct (known a) eqn:K; cbn [add_addons].
  - apply IH; [ exact Hbp | ].
    apply add_signed; [ exact Ht | ].
    apply float_mul_signed; [ exact Hbp | apply surcharge_factor ].
  - rewrite (dict_get_absent addon_map a (PyInt 0) (known_false a K)).
    rewrite (add_zero_same_sign (sign_of (Prim2SF bp)) total _ Ht
               (float_mul_zero bp Hbp)).
    now apply IH.
Qed.

(** X1: for a real (finite) box price, the labels that are not in the
    table can be dropped from the request, wherever they stand in the
    list: the response is the same. *)
Theorem unknown_addons_ignored_anywhere ul req :
  is_finite (box_price req) = true ->
  estimate ul {| box_price := box_price req; tier := tier req;
                 addons := filter known (addons req) |}
  = estimate ul req.
Proof.
  intros Hbp. unfold estimate, estimate_total. cbn [box_price tier addons].
  rewrite add_addons_filter; [ reflexivity | exact Hbp | ].
  apply float_mul_signed; [ exact Hbp | apply multiplier_factor ].
Qed.


(** ** The sign of the estimate *)

Lemma binary_normalize_nonneg_signed z e :
  (0 <= z)%Z -> signed false (binary_normalize prec emax z e false).
Proof.
  destruct z as [ | p | p ]; intros H; cbn [binary_normalize]; try lia.
  - reflexivity.
  - apply binary_round_signed.
Qed.

Lemma SFldexp_signed s x e : signed s x -> signed s (SFldexp prec emax x e).
Proof.
  destruct x as [s' | s' | | s' m ex]; cbn [SFldexp signed]; auto.
  intros ->. apply binary_round_signed.
Qed.

Lemma SFopp_signed s x : signed s x -> signed (negb s) (SFopp x).
Proof. destruct x; cbn [SFopp signed]; intros; subst; auto. Qed.

(** Reading a double back keeps its sign. *)
Lemma SF2Prim_signed s x : signed s x -> signed s (Prim2SF (SF2Prim x)).
Proof.
  destruct x as [[ | ] | [ | ] | | s' m e]; cbn [signed]; intros H; subst;
    try (vm_compute; reflexivity); try contradiction.
  unfold SF2Prim, Z.ldexp.
  set (pm := of_uint63 _). set (sh := Uint63Axioms.of_Z _).
  assert (Hl : signed false (Prim2SF (ldshiftexp pm sh))).
  { rewrite ldshiftexp_spec. apply SFldexp_signed.
    unfold pm. rewrite of_uint63_spec.
    apply binary_normalize_nonneg_signed.
    apply Uint63.to_Z_bounded. }
  destruct s.
  - rewrite FloatAxioms.opp_spec. now apply (SFopp_signed false).
  - exact Hl.
Qed.

Lemma round_signed s x rounded :
  signed s (Prim2SF x) -> round x 2 = Returns rounded ->
  signed s (Prim2SF rounded).
Proof.
  intros Hs R.
  destruct (Prim2SF x) as [s' | s' | | s' m e] eqn:E.
  1-3: rewrite round_not_finite in R by (intros; rewrite E; discriminate);
       injection R as <-; now rewrite E.
  rewrite (round_finite x s' m e E) in R. injection R as <-.
  cbn [signed] in Hs. subst s'.
  apply SF2Prim_signed, nearest_double_signed. reflexivity.
Qed.

Lemma estimate_signed ul req :
  is_finite (box_price req) = true ->
  exists total,
    estimate ul req = Returns {| estimated_total := total |}
    /\ signed (sign_of (Prim2SF (box_price req))) (Prim2SF total).
Proof.
  intros Hbp. unfold estimate.
  destruct (round_returns (estimate_total ul req)) as [rounded R].
  rewrite R. exists rounded. split; [ reflexivity | ].
  apply (round_signed _ (estimate_total ul req)); [ | exact R ].
  now apply estimate_total_signed.
Qed.

Lemma positive_sign x : (0 <? x) = true -> sign_of (Prim2SF x) = false.
Proof.
  rewrite FloatAxioms.ltb_spec. change (Prim2SF 0) with (S754_zero false).
  destruct (Prim2SF x) as [s | [ | ] | | [ | ] m e]; cbn; congruence.
Qed.

Lemma negative_sign x : (x <? 0) = true -> sign_of (Prim2SF x) = true.
Proof.
  rewrite FloatAxioms.ltb_spec. change (Prim2SF 0) with (S754_zero false).
  destruct (Prim2SF x) as [s | [ | ] | | [ | ] m e]; cbn; congruence.
Qed.

Lemma signed_false_nonneg x : signed false (Prim2SF x) -> (0 <=? x) = true.
Proof.
  rewrite FloatAxioms.leb_spec. change (Prim2SF 0) with (S754_zero false).
  destruct (Prim2SF x) as [s | s | | s m e]; cbn; intros H; subst;
    try reflexivity; contradiction.
Qed.

Lemma signed_true_nonpos x : signed true (Prim2SF x) -> (x <=? 0) = true.
Proof.
  rewrite FloatAxioms.leb_spec. change (Prim2SF 0) with (S754_zero false).
  destruct (Prim2SF x) as [s | s | | s m e]; cbn; intros H; subst;
    try reflexivity; contradiction.
Qed.

(** X2: for a real (finite) box price the estimate never changes sign: a
    positive price gives a total that is not negative, a negative price a
    total that is not positive (the price is not validated, its sign is
    passed on). *)
Theorem estimate_keeps_the_sign ul req :
  is_finite (box_price req) = true ->
  exists total,
    estimate ul req = Returns {| estimated_total := total |}
    /\ ((0 <? box_price req) = true -> (0 <=? total) = true)
    /\ ((box_price req <? 0) = true -> (total <=? 0) = true).
Proof.
  intros Hbp. destruct (estimate_signed ul req Hbp) as [total [E S]].
  exists total. split; [ exact E | ]. split; intros H.
  - rewrite (positive_sign _ H) in S. now apply signed_false_nonneg.
  - rewrite (negative_sign _ H) in S. now apply signed_true_nonpos.
Qed.

Lemma estimate_keeps_the_sign_witness :
  exists total,
    estimate (fun t => t)
      {| box_price := -19.99; tier := str "Bankai";
         addons := [str "OSL Effects"; str "glitter"] |}
    = Returns {| estimated_total := total |}
    /\ (total <=? 0) = true.
Proof.
  destruct (estimate_keeps_the_sign (fun t => t)
              {| box_price := -19.99; tier := str "Bankai";
                 addons := [str "OSL Effects"; str "glitter"] |})
    as [total [E [_ N]]].
  - vm_compute. reflexivity.
  - exists total. split; [ exact E | ]. apply N. vm_compute. reflexivity.
Defined.

(** ** A zero and a NaN box price *)

Lemma is_zero_spec x : is_zero x = true -> exists s, Prim2SF x = S754_zero s.
Proof.
  unfold is_zero. rewrite FloatAxioms.eqb_spec. change (Prim2SF 0) with (S754_zero false).
  destruct (Prim2SF x) as [s | [ | ] | | [ | ] m e]; cbn; try discriminate.
  intros _. now exists s.
Qed.

Lemma float_mul_of_zero s bp n :
  Prim2SF bp = S754_zero s -> factor (to_float n) ->
  Prim2SF (float_mul bp n) = S754_zero s.
Proof.
  intros Z [Hs Hr]. unfold float_mul. rewrite mul_spec, Z.
  destruct (Prim2SF (to_float n)) as [s' | s' | | s' m e];
    cbn in *; subst; try contradiction; now rewrite xorb_false_r.
Qed.

Lemma add_addons_of_zero s bp l : forall total,
  Prim2SF bp = S754_zero s -> Prim2SF total = S754_zero s ->
  Prim2SF (add_addons bp l total) = S754_zero s.
Proof.
  induction l as [ | a l IH]; intros total Z T; cbn [add_addons];
    [ exact T | ].
  apply IH; [ exact Z | ].
  rewrite add_spec, T, (float_mul_of_zero s bp _ Z (surcharge_factor a)).
  destruct s; reflexivity.
Qed.

(** X3: a zero box price, of either sign, estimates to that same zero
    whatever the tier and the add-ons. *)
Theorem zero_price_estimates_to_zero ul req :
  is_zero (box_price req) = true ->
  estimate ul req = Returns {| estimated_total := box_price req |}.
Proof.
  intros H. destruct (is_zero_spec _ H) as [s Z].
  assert (T : Prim2SF (estimate_total ul req) = S754_zero s).
  { unfold estimate_total. apply add_addons_of_zero; [ exact Z | ].
    apply float_mul_of_zero; [ exact Z | apply multiplier_factor ]. }
  unfold estimate.
  rewrite round_not_finite by (intros; rewrite T; discriminate).
  do 2 f_equal. apply Prim2SF_inj. congruence.
Qed.

Lemma zero_price_estimates_to_zero_witness :
  estimate (fun t => t)
    {| box_price := -0; tier := str "shikai";
       addons := [str "Magnetization"; str "Advanced Basing"] |}
  = Returns {| estimated_total := -0 |}.
Proof.
  apply (zero_price_estimates_to_zero (fun t => t)
           {| box_price := -0; tier := str "shikai";
              addons := [str "Magnetization"; str "Advanced Basing"] |}).
  vm_compute. reflexivity.
Defined.

Lemma add_addons_of_nan bp l : forall total,
  Prim2SF total = S754_nan -> Prim2SF (add_addons bp l total) = S754_nan.
Proof.
  induction l as [ | a l IH]; intros total T; cbn [add_addons]; [ exact T | ].
  apply IH. now rewrite add_spec, T.
Qed.

(** X4: a NaN box price is not rejected and is not turned into a number:
    [estimate] returns NaN, for every tier and add-on list. *)
Theorem nan_price_estimates_to_nan ul req :
  is_nan (box_price req) = true ->
  estimate ul req = Returns {| estimated_total := nan |}.
Proof.
  intros H. apply Prim2SF_nan_iff in H.
  assert (T : Prim2SF (estimate_total ul req) = S754_nan).
  { unfold estimate_total. apply add_addons_of_nan.
    unfold float_mul. now rewrite mul_spec, H. }
  unfold estimate.
  rewrite round_not_finite by (intros; rewrite T; discriminate).
  do 2 f_equal. apply Prim2SF_inj. rewrite T. reflexivity.
Qed.

Lemma nan_price_estimates_to_nan_witness :
  estimate (fun t => t)
    {| box_price := nan; tier := str "shikai"; addons := [str "OSL Effects"] |}
  = Returns {| estimated_total := nan |}.
Proof.
  apply (nan_price_estimates_to_nan (fun t => t)
           {| box_price := nan; tier := str "shikai";
              addons := [str "OSL Effects"] |}).
  vm_compute. reflexivity.
Defined.

(** ** An infinite box price *)

Lemma is_infinity_spec x :
  is_infinity x = true -> exists s, Prim2SF x = S754_infinity s.
Proof.
  unfold is_infinity. rewrite FloatAxioms.eqb_spec, abs_spec.
  change (Prim2SF infinity) with (S754_infinity false).
  destruct (Prim2SF x) as [s | s | | s m e]; cbn; try discriminate.
  intros _. now exists s.
Qed.

Lemma multiplier_finite ul t :
  exists m e, Prim2SF (to_float (PyInt (base_multiplier ul t))) = S754_finite false m e.
Proof.
  unfold base_multiplier. destruct (eqb _ _); vm_compute; eauto.
Qed.

Lemma known_fraction_finite a :
  known a = true ->
  exists m e, Prim2SF (to_float (dict_get addon_map a (PyInt 0))) = S754_finite false m e.
Proof.
  unfold known, known_addons, addon_map. cbn [map fst existsb dict_get].
  repeat match goal with
         | |- context [if eqb a ?k then _ else _] => destruct (eqb a k)
         end; cbn [orb]; try discriminate; intros _; vm_compute; eauto.
Qed.

Lemma unknown_fraction_zero a :
  known a = false -> to_float (dict_get addon_map a (PyInt 0)) = 0.
Proof.
  intros K. now rewrite (dict_get_absent addon_map a (PyInt 0) (known_false a K)).
Qed.

Lemma add_addons_infinite s bp l : forall total,
  Prim2SF bp = S754_infinity s ->
  Prim2SF total = S754_infinity s ->
  Prim2SF (add_addons bp l total)
  = if forallb known l then S754_infinity s else S754_nan.
Proof.
  induction l as [ | a l IH]; intros total B T; cbn [add_addons forallb];
    [ exact T | ].
  destruct (known a) eqn:K; cbn [andb].
  - apply IH; [ exact B | ].
    destruct (known_fraction_finite a K) as (m & e & F).
    unfold float_mul. rewrite add_spec, mul_spec, T, B, F.
    destruct s; reflexivity.
  - apply add_addons_of_nan.
    unfold float_mul. rewrite add_spec, mul_spec, T, B, (unknown_fraction_zero a K).
    reflexivity.
Qed.

(** X5: at an infinite box price [estimate] returns that infinity when
    every add-on is in the table, and NaN as soon as one is not (its
    surcharge is [inf * 0]). *)
Theorem infinite_price_estimate ul req :
  is_infinity (box_price req) = true ->
  estimate ul req =
  Returns {| estimated_total :=
               if forallb known (addons req) then box_price req else nan |}.
Proof.
  intros H. destruct (is_infinity_spec _ H) as [s B].
  assert (T : Prim2SF (estimate_total ul req)
              = if forallb known (addons req) then S754_infinity s else S754_nan).
  { unfold estimate_total. apply add_addons_infinite; [ exact B | ].
    destruct (multiplier_finite ul (tier req)) as (m & e & F).
    unfold float_mul. rewrite mul_spec, B, F. cbn. now rewrite xorb_false_r. }
  unfold estimate.
  rewrite round_not_finite
    by (intros; rewrite T; destruct (forallb known (addons req)); discriminate).
  do 2 f_equal. apply Prim2SF_inj. rewrite T.
  destruct (forallb known (addons req)); [ now rewrite B | reflexivity ].
Qed.

Lemma infinite_price_estimate_witness :
  estimate (fun t => t)
    {| box_price := neg_infinity; tier := str "bankai";
       addons := [str "Magnetization"; str "Advanced Basing"] |}
  = Returns {| estimated_total := neg_infinity |}.
Proof.
  apply (infinite_price_estimate (fun t => t)
           {| box_price := neg_infinity; tier := str "bankai";
              addons := [str "Magnetization"; str "Advanced Basing"] |}).
  vm_compute. reflexivity.
Defined.

(** ** The tier is matched whole *)

Lemma eqb_length s t : eqb s t = true -> List.length s = List.length t.
Proof. intros H. apply eqb_eq in H. now subst. Qed.

(** X6: an ASCII tier is compared whole after lowering its letters:
    the multiplier is 2 exactly when the lowered tier is "shikai", so a
    tier of any other length (surrounding whitespace is not trimmed)
    gets 4. *)
Theorem ascii_tier_matched_whole ul tier :
  forallb is_ascii tier = true ->
  (base_multiplier ul tier = 2%Z <-> map ascii_lower tier = str "shikai")
  /\ (List.length tier <> 6%nat -> base_multiplier ul tier = 4%Z).
Proof.
  intros A. unfold base_multiplier, lower. rewrite A.
  destruct (eqb (map ascii_lower tier) (str "shikai")) eqn:E.
  - pose proof (eqb_length _ _ E) as L. rewrite length_map in L.
    apply eqb_eq in E. split; [ tauto | ].
    intros N. elim N. exact L.
  - split; [ | reflexivity ].
    split; [ discriminate | ].
    intros H. apply eqb_eq in H. congruence.
Qed.

Lemma ascii_tier_matched_whole_witness :
  base_multiplier (fun t => t) (str " shikai") = 4%Z.
Proof.
  apply (proj2 (ascii_tier_matched_whole (fun t => t) (str " shikai")
                  eq_refl)).
  vm_compute. discriminate.
Defined.

Lemma unknown_addons_ignored_anywhere_witness :
  estimate (fun t => t)
    {| box_price := 42.5; tier := str "shikai";
       addons := filter known [str "glitter"; str "Magnetization"; str ""] |}
  = estimate (fun t => t)
      {| box_price := 42.5; tier := str "shikai";
         addons := [str "glitter"; str "Magnetization"; str ""] |}.
Proof.
  apply (unknown_addons_ignored_anywhere (fun t => t)
           {| box_price := 42.5; tier := str "shikai";
              addons := [str "glitter"; str "Magnetization"; str ""] |}).
  vm_compute. reflexivity.
Defined.

End EstimateMore.

(* ================================================================== *)
(** * More about the add-on parser *)
(* ================================================================== *)

Module ContactMore.
Import PyStr Py Contact ContactWords ContactSpec.

(** ** Splitting and joining *)

Lemma split_length sep s :
  List.length (split sep s) = S (count_occ N.eq_dec s sep).
Proof.
  induction s as [ | c s IH]; cbn [split count_occ]; [ reflexivity | ].
  destruct (N.eq_dec c sep) as [-> | D].
  - rewrite N.eqb_refl. cbn [List.length]. now rewrite IH.
  - apply N.eqb_neq in D. rewrite D.
    destruct (split sep s) as [ | seg segs]; cbn [List.length] in *; lia.
Qed.

(** ** Stripping *)

Lemma strip_unpadded s : padded s = false -> strip s = s.
Proof.
  destruct s as [ | c t]; [ reflexivity | ].
  cbn [padded]. intros P. apply orb_false_iff in P as [P1 P2].
  unfold strip. cbn [lstrip]. rewrite P1.
  unfold rstrip.
  destruct (rev (c :: t)) as [ | d u] eqn:R.
  - apply (f_equal (@List.length _)) in R. rewrite length_rev in R. discriminate.
  - assert (E : c :: t = rev u ++ [d]).
    { rewrite <- (rev_involutive (c :: t)), R. reflexivity. }
    rewrite E, last_last in P2.
    cbn [lstrip]. rewrite P2. cbn [rev]. now rewrite E.
Qed.

(** ** The parser *)

Lemma addons_list_labels_clean addons :
  Forall clean (addons_list addons).
Proof.
  rewrite addons_list_split. apply Forall_forall. intros label H.
  apply filter_In in H as [H T].
  apply in_map_iff in H as [seg [<- S]].
  split; [ exact T | ]. split; [ apply strip_not_padded | ].
  intros I. apply strip_incl in I.
  pose proof (split_segments_no_sep 44%N (addons_text addons)) as F.
  rewrite Forall_forall in F. exact (F seg S I).
Qed.

Lemma addons_list_of_join labels :
  Forall clean labels -> addons_list (Some (join 44%N labels)) = labels.
Proof.
  intros F. rewrite addons_list_split. cbn [addons_text].
  destruct labels as [ | l ls]; [ reflexivity | ].
  rewrite split_join.
  - induction F as [ | x xs [T [P _]] _ IH]; cbn [map filter]; [ reflexivity | ].
    rewrite (strip_unpadded x P), T. now rewrite IH.
  - discriminate.
  - apply Forall_impl with (2 := F). intros x [_ [_ C]]. exact C.
Qed.

(** X7: joining clean labels (not empty, no whitespace at the ends, no
    comma) with commas and parsing the text gives the labels back, in
    order. *)
Theorem addons_round_trip labels :
  Forall clean labels -> addons_list (Some (join 44%N labels)) = labels.
Proof. exact (addons_list_of_join labels). Qed.

Lemma addons_round_trip_witness :
  addons_list
    (Some (join 44%N [str "OSL Effects"; str "Weathering / Battle Damage"]))
  = [str "OSL Effects"; str "Weathering / Battle Damage"].
Proof.
  apply addons_round_trip.
  repeat constructor; try (vm_compute; intuition discriminate).
Defined.

(** X8: no parsed label holds a comma, so the list survives being
    joined and parsed again: parsing normalises once and for all. *)
Theorem addons_list_normal addons :
  Forall (fun label => ~ In 44%N label) (addons_list addons)
  /\ addons_list (Some (join 44%N (addons_list addons))) = addons_list addons.
Proof.
  pose proof (addons_list_labels_clean addons) as F. split.
  - apply Forall_impl with (2 := F). intros x [_ [_ C]]. exact C.
  - now apply addons_list_of_join.
Qed.

(** X9: the parser yields at most one label more than the text has
    commas. *)
Theorem addons_list_length addons :
  List.length (addons_list addons)
  <= S (count_occ N.eq_dec (addons_text addons) 44%N).
Proof.
  rewrite addons_list_split, <- split_length.
  set (segs := split 44%N (addons_text addons)).
  rewrite <- (length_map strip segs).
  induction (map strip segs) as [ | x xs IH]; cbn [filter List.length]; [ lia | ].
  destruct (truthy x); cbn [List.length]; lia.
Qed.

End ContactMore.

(* ================================================================== *)
(** * More about the contact handler *)
(* ================================================================== *)

Module HandlerMore.
Import PyStr Py Json Contact ContactWords.

(** ** Uploaded files *)

Lemma file_entry_facts f :
  info_filename (file_entry f) = filename f
  /\ info_content_type (file_entry f) = content_type f
  /\ (info_size (file_entry f) = None
      <-> (exists exc, read f = Raises exc) \/ (exists exc, close f = Raises exc))
  /\ (forall n, info_size (file_entry f) = Some n ->
        exists chunk, read f = Returns chunk /\ n = Z.of_nat (List.length chunk)).
Proof.
  unfold file_entry.
  destruct (read f) as [chunk | e1]; [ destruct (close f) as [u | e2] | ];
    cbn; repeat split; auto; try discriminate; eauto.
  - intros [[exc H] | [exc H]]; discriminate.
  - intros n H. injection H as <-. eauto.
Qed.

(** X10: every uploaded file has its entry, at the same position, with
    the file's name and content type; the entry has no size exactly when
    reading or closing the file raised, and a size is the number of bytes
    read.  A failing file neither stops the handler nor drops the
    others. *)
Theorem one_entry_per_uploaded_file form :
  List.length (payload_files (payload_of form)) = List.length (uploaded form)
  /\ forall i f,
       nth_error (uploaded form) i = Some f ->
       exists entry,
         nth_error (payload_files (payload_of form)) i = Some entry
         /\ info_filename entry = filename f
         /\ info_content_type entry = content_type f
         /\ (info_size entry = None
             <-> (exists exc, read f = Raises exc)
                 \/ (exists exc, close f = Raises exc))
         /\ (forall n, info_size entry = Some n ->
               exists chunk,
                 read f = Returns chunk /\ n = Z.of_nat (List.length chunk)).
Proof.
  unfold payload_of, uploaded, file_info. cbn [payload_files].
  destruct (files form) as [fs | ].
  - split; [ apply length_map | ].
    intros i f H. exists (file_entry f). split.
    + now apply map_nth_error.
    + apply file_entry_facts.
  - split; [ reflexivity | ].
    intros [ | i] f H; discriminate.
Qed.

Lemma one_entry_per_uploaded_file_witness :
  exists entry,
    nth_error (payload_files (payload_of sample_form)) 0 = Some entry
    /\ info_filename entry = Some (str "ref.png")
    /\ info_size entry = None.
Proof.
  destruct (proj2 (one_entry_per_uploaded_file sample_form) 0%nat
              {| filename := Some (str "ref.png");
                 content_type := Some (str "image/png");
                 read := Raises (str "OSError");
                 close := Returns tt |} eq_refl)
    as (entry & E & N & _ & S & _).
  exists entry. split; [ exact E | ]. split; [ exact N | ].
  apply S. left. now exists (str "OSError").
Defined.

(** ** The response *)



End HandlerMore.

(* ================================================================== *)
(** * The diagnostic meets its source *)
(* ================================================================== *)

Module DiagnosticsSpec.
Import PyStr Diagnostics.

(** X13: the last two assignments decide [database_url] and
    [database_name]: both report only whether the environment variable
    is set and not empty, for every outcome of the import; the name of
    the database written earlier is never returned.  [backend] is always
    the running mark. *)
Theorem environment_fields_from_environment_only getenv import_db :
  database_url (test_database getenv import_db)
  = Some (set_or_not getenv (str "DATABASE_URL"))
  /\ database_name (test_database getenv import_db)
     = Some (set_or_not getenv (str "DATABASE_NAME"))
  /\ backend (test_database getenv import_db) = check_mark ++ str " Running".
Proof.
  unfold test_database.
  destruct import_db as [ [db | ] | e ]; cbn -[firstn].
  - destruct (name db) as [n | e]; cbn -[firstn].
    + destruct (list_collection_names db); cbn; auto.
    + unfold outer_except. destruct (is_import_error e); cbn; auto.
  - auto.
  - unfold outer_except. destruct (is_import_error e); cbn; auto.
Qed.

Lemma firstn_bound {A : Type} n (l : list A) : List.length (firstn n l) <= n.
Proof. rewrite length_firstn. lia. Qed.

(** X14: at most ten collections are reported, the first ten the store
    names; a report with any collection in it says "Connected & Working"
    and "Connected". *)
Theorem collections_bounded getenv import_db :
  List.length (collections (test_database getenv import_db)) <= 10
  /\ (collections (test_database getenv import_db) = []
      \/ exists db names,
           import_db = Done (Some db)
           /\ list_collection_names db = Done names
           /\ collections (test_database getenv import_db) = firstn 10 names
           /\ database (test_database getenv import_db)
              = check_mark ++ str " Connected & Working"
           /\ connection_status (test_database getenv import_db)
              = str "Connected").
Proof.
  unfold test_database.
  destruct import_db as [ [db | ] | e ]; cbn -[firstn].
  - destruct (name db) as [n | e]; cbn -[firstn].
    + destruct (list_collection_names db) as [names | e] eqn:L; cbn -[firstn].
      * split; [ apply firstn_bound | ].
        right. exists db, names. auto.
      * split; [ lia | now left ].
    + unfold outer_except. destruct (is_import_error e); cbn -[firstn];
        (split; [ lia | now left ]).
  - split; [ lia | now left ].
  - unfold outer_except. destruct (is_import_error e); cbn -[firstn];
      (split; [ lia | now left ]).
Qed.

(** X15: the report says "Connected" exactly when the import bound an
    object and reading its name did not throw, and "Connected & Working"
    exactly when listing the collections succeeded as well. *)
Theorem connection_status_characterised getenv import_db :
  (connection_status (test_database getenv import_db) = str "Connected"
   <-> exists db n, import_db = Done (Some db) /\ name db = Done n)
  /\ (database (test_database getenv import_db)
      = check_mark ++ str " Connected & Working"
      <-> exists db n names,
            import_db = Done (Some db) /\ name db = Done n
            /\ list_collection_names db = Done names).
Proof.
  unfold test_database.
  destruct import_db as [ [db | ] | e ]; cbn -[firstn].
  - destruct (name db) as [n | e] eqn:N; cbn -[firstn].
    + destruct (list_collection_names db) as [names | e] eqn:L; cbn -[firstn].
      * split; split; auto; intros _.
        -- exists db, n. rewrite N. auto.
        -- exists db, n, names. rewrite N, L. auto.
      * split; split; auto; try discriminate.
        -- intros _. exists db, n. rewrite N. auto.
        -- intros (db' & n' & names' & I & _ & L'). injection I as <-.
           congruence.
    + unfold outer_except. destruct (is_import_error e); cbn -[firstn];
        (split; split; try discriminate;
         [ intros (db' & n' & I & N'); injection I as <-; congruence
         | intros (db' & n' & names' & I & N' & _); injection I as <-;
           congruence ]).
  - split; split; try discriminate.
    + intros (db' & n' & I & _). discriminate.
    + intros (db' & n' & names' & I & _). discriminate.
  - unfold outer_except. destruct (is_import_error e); cbn -[firstn];
      (split; split; try discriminate;
       [ intros (db' & n' & I & _); discriminate
       | intros (db' & n' & names' & I & _); discriminate ]).
Qed.

(** X16: the [database] field quotes at most fifty characters of an
    exception's text: it is never longer than 74 characters. *)
Theorem database_field_bounded getenv import_db :
  List.length (database (test_database getenv import_db)) <= 74.
Proof.
  unfold test_database.
  destruct import_db as [ [db | ] | e ]; cbn -[firstn].
  - destruct (name db) as [n | e]; cbn -[firstn].
    + destruct (list_collection_names db) as [names | e]; cbn -[firstn]; [ lia | ].
      pose proof (firstn_bound 50 (text e)). lia.
    + unfold outer_except. destruct (is_import_error e); cbn -[firstn]; [ lia | ].
      pose proof (firstn_bound 50 (text e)). lia.
  - lia.
  - unfold outer_except. destruct (is_import_error e); cbn -[firstn]; [ lia | ].
    pose proof (firstn_bound 50 (text e)). lia.
Qed.

End DiagnosticsSpec.
